(** * shalm: the chart runtime object and the jewel (managed secret) engine

    A shallow embedding of [pkg/shalm/chart.go] and of the jewel source that
    follows it in the same package, with the properties of the package
    specification stated over it.

    Conventions of the embedding.
    - A Go [error] is an [option error]: [None] is [nil].
    - A function returning [(T, error)] returns a pair, as in Go; the caller
      tests the error first, as the source does.
    - A method with a pointer receiver that assigns to fields of the receiver
      returns the receiver after the call.
    - A call that can panic says how it ended: it returned, or it panicked.
    - Calls that leave the package (the backend of a jewel, the vault, the
      cluster client, the script interpreter, the template renderer) are
      recorded in a trace, in the order in which the source makes them.  What
      such a call answers may depend on the moment it is made: every
      collaborator takes the number of calls made so far as its first
      argument, so that a backend that generates a fresh secret on every call
      is an instance of the model.  The script interpreter and the template
      renderer run code of their own, which can make further calls and
      change the chart they work on: they take the trace so far and answer
      with the calls they made and the chart as they left it. *)

From Stdlib Require Import ZArith Strings.Byte String List Permutation Lia.
From stdpp Require Import base option list strings gmap.

Set Warnings "-register-all".
Local Open Scope string_scope.
Local Open Scope Z_scope.

(** ** Go data *)

Module Go.

(** [uint32] arithmetic: Go wraps around silently. *)
Definition uint32 (z : Z) : Z := z mod 2 ^ 32.

Definition mul32 (a b : Z) : Z := uint32 (a * b).
Definition add32 (a b : Z) : Z := uint32 (a + b).
Definition xor32 (a b : Z) : Z := Z.lxor a b.

(** [string(b)] for [b []byte]: the same bytes. *)
Definition string_of_bytes (b : list byte) : string := string_of_list_byte b.

End Go.

(** [starlark.NoSuchAttrError] is a string type that implements [error];
    every other error is kept as its message. *)
Inductive error :=
| NoSuchAttrError (msg : string)
| OtherError (msg : string).

(** [map[string][]byte].  The source only reads such maps ([m[k]]), hands
    them over and replaces them as a whole, and a [nil] map reads like an
    empty one: both are [∅].  A lookup [m[k]] is [m !! k], [None] being the
    [nil] slice that Go returns for a missing key. *)
Abbreviation Payload := (gmap string (list byte)).

(** ** The jewel: interfaces *)

(** The part of [ComplexJewelBackend] that [JewelBackend] lacks. *)
Record ComplexJewelBackend := {
  Template : nat -> Payload * option error;
  Delete : nat -> option error;
}.

(** [JewelBackend].  [complex] is [Some] exactly when the type assertion
    [backend.(ComplexJewelBackend)] succeeds.  [Name] and [Keys] are taken
    as the backend's declarations and are not recorded as calls. *)
Record JewelBackend := {
  Name : string;
  Keys : gmap string string;
  Apply : nat -> Payload -> Payload * option error;
  complex : option ComplexJewelBackend;
}.

(** [Vault], as far as [jewel.read] uses it. *)
Record Vault := {
  Read : nat -> string -> Payload * option error;
  IsNotExist : error -> bool;
}.

Definition stateInit : Z := 0.
Definition stateLoaded : Z := 1.
Definition stateReady : Z := 2.

Record jewel := mkJewel {
  backend : JewelBackend;
  state : Z;
  name : string;
  data : Payload;
}.

Definition jewel_set_data (c : jewel) (d : Payload) : jewel :=
  {| backend := backend c; state := state c; name := name c; data := d |}.

Definition jewel_set_state (c : jewel) (s : Z) : jewel :=
  {| backend := backend c; state := s; name := name c; data := data c |}.

(** [NewJewel]: state is the zero value, [stateInit]; data is an empty map. *)
Definition NewJewel (b : JewelBackend) (n : string) : jewel :=
  {| backend := b; state := 0; name := n; data := ∅ |}.

(** [dataValue]: [nil] decodes to the empty string. *)
Definition dataValue (d : option (list byte)) : string :=
  match d with
  | Some b => Go.string_of_bytes b
  | None => ""
  end.

(** ** Values of the sandbox *)

(** [starlark.Callable], known by its name. *)
Inductive Callable :=
| Builtin (fname : string)
| Function (fname : string).

(** [chartClass] is declared elsewhere in the package; [chart.go] uses its
    [Name] and [Version] fields. *)
Record chartClass := {
  class_Name : string;
  class_Version : string;
}.

(** [chartImpl], over the type of the values it holds.  [values] is the
    [starlark.StringDict]: a Go map, kept as the list of its entries in the
    order in which a [range] over it yields them.  Go fixes no such order, so
    a statement about the map holds for every order of the list.  A key of
    [methods] can be bound to a [nil] callable: [Some None]. *)
Record chartImpl_ (V : Type) := mkChart {
  clazz : chartClass;
  values : list (string * V);
  methods : gmap string (option Callable);
  dir : string;
  namespace : string;
  suffix : string;
}.
Arguments mkChart {V}.
Arguments clazz {V}.
Arguments values {V}.
Arguments methods {V}.
Arguments dir {V}.
Arguments namespace {V}.
Arguments suffix {V}.

(** [starlark.Value]: the values that [chart.go] and the jewel make or
    inspect themselves, and [VLib] for every other value of the interpreter
    (numbers, lists, dictionaries, ...), known by a tag.  [VVault] is a
    managed secret: [chart.go] refers to its type as [vault]; the source of
    the type itself calls it [jewel].  Values are held by value: two entries
    that share one jewel or one chart are outside the model. *)
Inductive Value :=
| VNone
| VBool (b : bool)
| VString (s : string)
| VCallable (f : Callable)
| VClass (cl : chartClass)
| VLib (tag : string)
| VVault (v : jewel)
| VChart (c : chartImpl_ Value).

Abbreviation chartImpl := (chartImpl_ Value).

(** What a call of [Hash() (uint32, error)] does: it returns, or panics. *)
Inductive HashOutcome :=
| Returned (h : Z) (err : option error)
| Panicked (msg : string).

(** How a call that returns an [error] ends: it returns (an error or
    [nil]), or it panics. *)
Inductive Completion :=
| Returns (err : option error)
| Panics (msg : string).

(** The panic of the Go runtime when a method is called on a [nil]
    interface. *)
Definition nil_dereference : string :=
  "runtime error: invalid memory address or nil pointer dereference".

(** [K8sOptions] is declared elsewhere in the package; [chart.go] uses its
    [Namespaced] field. *)
Record K8sOptions := {
  Namespaced : bool;
}.

(** [k8sOptions.Namespaced = b] *)
Definition set_Namespaced (o : K8sOptions) (b : bool) : K8sOptions :=
  {| Namespaced := b |}.

(** ** The cluster client and the trace *)

(** [K8sValue], over the type [O] of decoded manifest streams (declared
    elsewhere in the package).  [chart.go] hands the client to the read of a
    managed secret, which takes a [Vault]: [k8s_vault] is the client seen as
    one. *)
Record K8sValue_ (O : Type) := {
  k8s_vault : Vault;
  k8s_Apply : nat -> O -> K8sOptions -> option error;
  k8s_Delete : nat -> O -> K8sOptions -> option error;
}.
Arguments k8s_vault {O}.
Arguments k8s_Apply {O}.
Arguments k8s_Delete {O}.

(** The calls that leave the package. *)
Inductive Event {O : Type} :=
| BackendApply (backend_name : string) (input : Payload)
| BackendTemplate (backend_name : string)
| BackendDelete (backend_name : string)
| VaultRead (secret : string)
| StarlarkCall (fn : option Callable) (k : K8sValue_ O)
| RenderTemplate (chart : string) (glob : string) (flag : bool)
| K8sApply (k : K8sValue_ O) (objects : O) (opts : K8sOptions)
| K8sDelete (k : K8sValue_ O) (objects : O) (opts : K8sOptions).
Arguments Event : clear implicits.

(** A computation that makes such calls: it extends the trace. *)
Definition Eff (O A : Type) : Type := list (Event O) -> A * list (Event O).

Global Instance Eff_ret {O} : MRet (Eff O) := λ A a t, (a, t).
Global Instance Eff_bind {O} : MBind (Eff O) :=
  λ A B f m t, let '(a, t') := m t in f a t'.

(** [call ev answer]: make the call [ev]; its answer is the collaborator's,
    at this moment. *)
Definition call {O A} (ev : Event O) (answer : nat -> A) : Eff O A :=
  λ t, (answer (List.length t), (t ++ [ev])%list).

(** Unfold the plumbing of [Eff]. *)
Ltac run_eff :=
  unfold mbind, mret, Eff_bind, Eff_ret, call in *; cbn in *.

(** ** The jewel *)

Module Jewel.
Section Jewel.

Context {O : Type}.

(** [func (c *jewel) delete() error] *)
Definition delete (c : jewel) : Eff O (jewel * option error) :=
  match complex (backend c) with
  | Some cx =>
      err ← call (BackendDelete (Name (backend c))) (Delete cx);
      mret (c, err)
  | None => mret (c, None)
  end.

(** [func (c *jewel) read(v Vault) error] *)
Definition read (c : jewel) (v : Vault) : Eff O (jewel * option error) :=
  '(d, err) ← call (VaultRead (name c)) (λ now, Read v now (name c));
  match err with
  | Some e =>
      if negb (IsNotExist v e) then mret (c, Some e) else mret (c, None)
  | None =>
      mret (jewel_set_state (jewel_set_data c d) stateLoaded, None)
  end.

(** The two assignments that end [ensure]. *)
Definition made_ready (c : jewel) (d : Payload) : jewel :=
  jewel_set_state (jewel_set_data c d) stateReady.

(** [func (c *jewel) ensure() (err error)].  The [switch] tries
    [stateLoaded], [stateInit], [stateReady] in this order; for any other
    state no case is taken and the local [data] is still [nil]. *)
Definition ensure (c : jewel) : Eff O (jewel * option error) :=
  if state c =? stateLoaded then
    '(d, err) ← call (BackendApply (Name (backend c)) (data c))
                     (λ now, Apply (backend c) now (data c));
    match err with
    | Some e => mret (c, Some e)
    | None => mret (made_ready c d, None)
    end
  else if state c =? stateInit then
    '(d, err) ← match complex (backend c) with
                | Some cx =>
                    call (BackendTemplate (Name (backend c))) (Template cx)
                | None =>
                    call (BackendApply (Name (backend c)) ∅)
                         (λ now, Apply (backend c) now ∅)
                end;
    match err with
    | Some e => mret (c, Some e)
    | None => mret (made_ready c d, None)
    end
  else if state c =? stateReady then
    mret (c, None)
  else
    mret (made_ready c ∅, None).

(** [func (c *jewel) templateValues() map[string]string]: the error of
    [ensure] is dropped; every entry [k: v] of [Keys()] gives the entry
    [k: dataValue(c.data[v])] of the result. *)
Definition templateValues (c : jewel) : Eff O (jewel * gmap string string) :=
  '(c', _) ← ensure c;
  mret (c', (λ v, dataValue (data c' !! v)) <$> Keys (backend c')).

(** [func (c *jewel) Hash() (uint32, error)] *)
Definition Hash (c : jewel) : HashOutcome := Panicked "implement me".

(** [func (c *jewel) Attr(name string) (starlark.Value, error)] *)
Definition Attr (c : jewel) (attr : string)
  : Eff O (jewel * (Value * option error)) :=
  if String.eqb attr "name" then
    mret (c, (VString (name c), None))
  else
    match Keys (backend c) !! attr with
    | None =>
        mret (c, (VNone,
                  Some (NoSuchAttrError
                          (Name (backend c) ++ " has no ." ++ attr
                             ++ " attribute"))))
    | Some key =>
        '(c', err) ← ensure c;
        match err with
        | Some e => mret (c', (VNone, Some e))
        | None => mret (c', (VString (dataValue (data c' !! key)), None))
        end
    end.

(** [func (c *jewel) String() string] *)
Definition String (c : jewel) : string :=
  Name (backend c) ++ "(" ++ "name = " ++ name c ++ ")".

(** [func (c *jewel) Type() string] *)
Definition Type_ (c : jewel) : string := Name (backend c).

(** [func (c *jewel) Truth() starlark.Bool] *)
Definition Truth (c : jewel) : bool := false.

(** [func (c *jewel) AttrNames() []string]: [name], then the keys of
    [Keys()] as the [range] yields them.  Go fixes no order for them; the
    model takes the order of [map_to_list]. *)
Definition AttrNames (c : jewel) : list string :=
  "name" :: (map_to_list (Keys (backend c))).*1.

(** [func (c *jewel) write(v Vault) error], over the [Write] method of the
    vault: the answer of [v.Write(c.name, c.data)] at the moment [now]. *)
Definition write (c : jewel)
    (vault_Write : nat -> string -> Payload -> option error) (now : nat)
  : option error :=
  vault_Write now (name c) (data c).

End Jewel.
End Jewel.

(** ** The chart *)

Module Chart.
Section Chart.

(** [O]: decoded manifest streams; [Stream]: what the renderer returns.
    Both types, the renderer [template], [decode], [wrapDict] and
    [unwrapDict] are declared elsewhere in the package.  [lib_Hash] is the
    [Hash] method of the interpreter's own values.

    [starlark_Call] is [starlark.Call] applied to a function that is not
    [nil] and to the one-element tuple of the client, with the returned
    value dropped as the source drops it.  What the function does is the
    interpreter's and the script's business: the builtin that
    [applyFunction] makes runs [apply] of its own chart, with that chart's
    hooks, reads, rendering and submission.  So [starlark_Call] is given the
    trace so far and the sub-chart whose hook is called, and answers what
    the sub-chart has become, how the call ended, and the calls made
    meanwhile.

    [template] is the renderer.  A template that reads a field of a jewel
    runs the jewel's [ensure], which may call the backend and changes the
    jewel.  So [template] is given the trace so far and the chart, and
    answers what the chart has become, the stream, and the calls made
    meanwhile. *)
Context {O Stream : Type}.
Variable lib_Hash : Value -> Z * option error.
Variable wrapDict unwrapDict : Value -> Value.
Variable starlark_Call :
  list (Event O) -> Callable -> K8sValue_ O -> chartImpl ->
  chartImpl * Completion * list (Event O).
Variable template :
  list (Event O) -> chartImpl -> string -> bool ->
  chartImpl * Stream * list (Event O).
Variable decode : Stream -> O.

(** [func (c *chartImpl) GetName() string] *)
Definition GetName (c : chartImpl) : string :=
  if String.eqb (suffix c) "" then class_Name (clazz c)
  else class_Name (clazz c) ++ "-" ++ suffix c.

(** [c.values[name]], with the [ok] of the two-valued form. *)
Fixpoint lookup_value (key : string) (vs : list (string * Value))
  : option Value :=
  match vs with
  | [] => None
  | (k, e) :: rest => if String.eqb k key then Some e else lookup_value key rest
  end.

(** [c.values[name] = val] *)
Fixpoint store_value (key : string) (val : Value) (vs : list (string * Value))
  : list (string * Value) :=
  match vs with
  | [] => [(key, val)]
  | (k, e) :: rest =>
      if String.eqb k key then (k, val) :: rest
      else (k, e) :: store_value key val rest
  end.

Definition set_values (c : chartImpl) (vs : list (string * Value)) : chartImpl :=
  mkChart (clazz c) vs (methods c) (dir c) (namespace c) (suffix c).

(** [c.methods[name]]: [nil] for a missing key. *)
Definition method (c : chartImpl) (hook : string) : option Callable :=
  match methods c !! hook with
  | Some f => f
  | None => None
  end.

(** The loop of [func (c *chartImpl) Hash() (uint32, error)], with the
    [Hash] method of the values as [vh]. *)
Definition hash_entries (vh : Value -> HashOutcome)
  : list (string * Value) -> Z -> Z -> HashOutcome :=
  fix loop (entries : list (string * Value)) (x m : Z) : HashOutcome :=
    match entries with
    | [] => Returned x None
    | (k, e) :: rest =>
        let namehash := fst (lib_Hash (VString k)) in
        let x := Go.xor32 x (Go.mul32 3 namehash) in
        match vh e with
        | Panicked msg => Panicked msg
        | Returned y (Some err) => Returned 0 (Some err)
        | Returned y None =>
            let x := Go.xor32 x (Go.mul32 y m) in
            let m := Go.add32 m 7349 in
            loop rest x m
        end
    end.

(** [e.Hash()] for a value [e] of the mapping: the chart's own method, the
    jewel's, or the library's. *)
Fixpoint Value_Hash (v : Value) : HashOutcome :=
  match v with
  | VChart c => hash_entries Value_Hash (values c) 8731 9839
  | VVault j => Jewel.Hash j
  | _ => let '(h, err) := lib_Hash v in Returned h err
  end.

(** [func (c *chartImpl) Hash() (uint32, error)] *)
Definition Hash (c : chartImpl) : HashOutcome :=
  hash_entries Value_Hash (values c) 8731 9839.

(** A value is hashable when its [Hash] returns a number and no error. *)
Definition hashable (v : Value) : Prop :=
  ∃ h, Value_Hash v = Returned h None.

(** What the loop of [Hash] accumulates, taken apart: the part of the keys,
    and the part of the values, which is decided by what the [Hash] of each
    value does, in the order of the loop. *)
Definition key_hashes (vs : list (string * Value)) : Z :=
  foldr (λ kv acc, Go.xor32 (Go.mul32 3 (fst (lib_Hash (VString kv.1)))) acc)
        0 vs.

Fixpoint value_hashes (outcomes : list HashOutcome) (m : Z) : HashOutcome :=
  match outcomes with
  | [] => Returned 0 None
  | Panicked msg :: _ => Panicked msg
  | Returned _ (Some err) :: _ => Returned 0 (Some err)
  | Returned y None :: rest =>
      match value_hashes rest (Go.add32 m 7349) with
      | Returned z None => Returned (Go.xor32 (Go.mul32 y m) z) None
      | other => other
      end
  end.

(** [func (c *chartImpl) Attr(name string) (starlark.Value, error)];
    a returned [nil] value is [None]. *)
Definition Attr (c : chartImpl) (attr : string) : option Value * option error :=
  if String.eqb attr "namespace" then (Some (VString (namespace c)), None)
  else if String.eqb attr "name" then (Some (VString (GetName c)), None)
  else if String.eqb attr "__class__" then (Some (VClass (clazz c)), None)
  else
    match lookup_value attr (values c) with
    | None =>
        let '(m, ok) := match methods c !! attr with
                        | Some f => (f, true)
                        | None => (None, false)
                        end in
        let m := if negb ok then None else m in
        match m with
        | None =>
            (None, Some (NoSuchAttrError
                           ("chart has no ." ++ attr ++ " attribute")))
        | Some f => (Some (VCallable f), None)
        end
    | Some value => (Some (wrapDict value), None)
    end.

(** The names that [Attr] answers before it looks at the values. *)
Definition reserved (attr : string) : Prop :=
  attr = "namespace" ∨ attr = "name" ∨ attr = "__class__".

(** [func (c *chartImpl) SetField(name string, val starlark.Value) error] *)
Definition SetField (c : chartImpl) (attr : string) (val : Value)
  : chartImpl * option error :=
  (set_values c (store_value attr (unwrapDict val) (values c)), None).

(** [func (c *chartImpl) eachSubChart(block) error], as a loop over the
    entries; the sub-charts that the blocks have changed are returned in
    place.  A block that panics ends the loop as one that returns an error
    does. *)
Fixpoint eachSubChart (vs : list (string * Value))
    (block : chartImpl -> Eff O (chartImpl * Completion))
  : Eff O (list (string * Value) * Completion) :=
  match vs with
  | [] => mret ([], Returns None)
  | (key, VChart subChart) :: rest =>
      '(subChart', r) ← block subChart;
      match r with
      | Returns None =>
          '(rest', r') ← eachSubChart rest block;
          mret ((key, VChart subChart') :: rest', r')
      | _ => mret ((key, VChart subChart') :: rest, r)
      end
  | entry :: rest =>
      '(rest', r) ← eachSubChart rest block;
      mret (entry :: rest', r)
  end.

(** [func (c *chartImpl) eachVault(block) error], as a loop over the
    entries; the jewels that the blocks have changed are returned in
    place. *)
Fixpoint eachVault (vs : list (string * Value))
    (block : jewel -> Eff O (jewel * option error))
  : Eff O (list (string * Value) * option error) :=
  match vs with
  | [] => mret ([], None)
  | (key, VVault v) :: rest =>
      '(v', err) ← block v;
      match err with
      | Some e => mret ((key, VVault v') :: rest, Some e)
      | None =>
          '(rest', err') ← eachVault rest block;
          mret ((key, VVault v') :: rest', err')
      end
  | entry :: rest =>
      '(rest', err) ← eachVault rest block;
      mret (entry :: rest', err)
  end.

(** The block that [apply] and [delete] pass to [eachSubChart]:
    [starlark.Call(thread, subChart.methods[hook], starlark.Tuple{k}, nil)],
    of which only the error is kept.  When the sub-chart has no such method
    the function is [nil], and [starlark.Call] panics: it asks the [nil]
    interface for its type. *)
Definition call_hook (hook : string) (k : K8sValue_ O) (subChart : chartImpl)
  : Eff O (chartImpl * Completion) :=
  λ t,
    let fn := method subChart hook in
    let t := (t ++ [StarlarkCall fn k])%list in
    match fn with
    | None => ((subChart, Panics nil_dereference), t)
    | Some f =>
        let '(subChart', r, made) := starlark_Call t f k subChart in
        ((subChart', r), (t ++ made)%list)
    end.

(** [c.template(thread, glob, flag)] *)
Definition render (c : chartImpl) (glob : string) (flag : bool)
  : Eff O (chartImpl * Stream) :=
  λ t,
    let t := (t ++ [RenderTemplate (GetName c) glob flag])%list in
    let '(c', s, made) := template t c glob flag in
    ((c', s), (t ++ made)%list).

(** [func (c *chartImpl) applyLocal(thread, k, k8sOptions, glob) error] *)
Definition applyLocal (c : chartImpl) (k : K8sValue_ O)
    (k8sOptions : K8sOptions) (glob : string)
  : Eff O (chartImpl * option error) :=
  '(vs, err) ← eachVault (values c) (λ v, Jewel.read v (k8s_vault k));
  let c := set_values c vs in
  match err with
  | Some e => mret (c, Some e)
  | None =>
      let k8sOptions := set_Namespaced k8sOptions false in
      '(c, s) ← render c glob true;
      err ← call (K8sApply k (decode s) k8sOptions)
                 (λ now, k8s_Apply k now (decode s) k8sOptions);
      mret (c, err)
  end.

(** [func (c *chartImpl) apply(thread, k) error] *)
Definition apply (c : chartImpl) (k : K8sValue_ O)
  : Eff O (chartImpl * Completion) :=
  '(vs, r) ← eachSubChart (values c) (call_hook "apply" k);
  let c := set_values c vs in
  match r with
  | Returns None =>
      '(c, err) ← applyLocal c k {| Namespaced := false |} "";
      mret (c, Returns err)
  | _ => mret (c, r)
  end.

(** [func (c *chartImpl) deleteLocal(thread, k, k8sOptions, glob) error] *)
Definition deleteLocal (c : chartImpl) (k : K8sValue_ O)
    (k8sOptions : K8sOptions) (glob : string)
  : Eff O (chartImpl * option error) :=
  let k8sOptions := set_Namespaced k8sOptions false in
  '(c, s) ← render c glob false;
  err ← call (K8sDelete k (decode s) k8sOptions)
             (λ now, k8s_Delete k now (decode s) k8sOptions);
  match err with
  | Some e => mret (c, Some e)
  | None =>
      '(vs, err) ← eachVault (values c) (λ v, Jewel.delete v);
      mret (set_values c vs, err)
  end.

(** [func (c *chartImpl) delete(thread, k) error] *)
Definition delete (c : chartImpl) (k : K8sValue_ O)
  : Eff O (chartImpl * Completion) :=
  '(vs, r) ← eachSubChart (values c) (call_hook "delete" k);
  let c := set_values c vs in
  match r with
  | Returns None =>
      '(c, err) ← deleteLocal c k {| Namespaced := false |} "";
      mret (c, Returns err)
  | _ => mret (c, r)
  end.

(** [func (c *chartImpl) AttrNames() []string]: the keys of the values
    mapping as the [range] yields them, then [template]. *)
Definition AttrNames (c : chartImpl) : list string :=
  (map fst (values c) ++ ["template"])%list.

(** [func (c *chartImpl) GetVersionString() string] *)
Definition GetVersionString (c : chartImpl) : string :=
  class_Version (clazz c).

(** [func (c *chartImpl) Type() string] and [Truth() starlark.Bool] *)
Definition Type_ (c : chartImpl) : string := "chart".
Definition Truth (c : chartImpl) : bool := true.

(** [merge] and [toStarlark] are declared elsewhere in the package, over the
    values [Iface] of a decoded YAML document.  [merge] takes what
    [c.values[k]] gives: [None] is the [nil] of a missing key. *)
Context {Iface : Type}.
Variable merge : option Value -> Value -> Value.
Variable toStarlark : Iface -> Value.

(** The loop of [func (c *chartImpl) mergeValues(values map[string]interface{})]
    over the entries of [values] in the order of the [range]. *)
Fixpoint merge_entries (overrides : list (string * Iface))
    (vs : list (string * Value)) : list (string * Value) :=
  match overrides with
  | [] => vs
  | (k, v) :: rest =>
      merge_entries rest
        (store_value k (merge (lookup_value k vs) (toStarlark v)) vs)
  end.

(** [func (c *chartImpl) mergeValues(values map[string]interface{})] *)
Definition mergeValues (c : chartImpl) (overrides : list (string * Iface))
  : chartImpl :=
  set_values c (merge_entries overrides (values c)).

End Chart.
End Chart.

(** ** The vault on the cluster *)

Module VaultK8s.
Section VaultK8s.

(** [Object], [MetaData], [K8sReader] and [ObjectWriter] are declared
    elsewhere in the package; the fields and methods are the ones that the
    vault uses.  A [json.RawMessage] is its bytes, and [Additional[k]] for a
    missing key is the empty message.  [Get] is taken to return an object
    whenever it returns no error. *)
Record MetaData := {
  Name : string;
  Namespace : string;
}.

Record Object := {
  APIVersion : string;
  Kind : string;
  MetaData_ : MetaData;
  Additional : gmap string (list byte);
}.

Record K8sReader := {
  Get : nat -> string -> string -> K8sOptions -> Object * option error;
  IsNotExist_ : error -> bool;
}.

Record vaultK8s := {
  k8s : K8sReader;
  objectWriter : nat -> Object -> option error;
  namespace : string;
}.

(** [json.Marshal] and [json.Unmarshal] at the type [map[string][]byte], and
    [corev1.SchemeGroupVersion.String()]. *)
Variable json_Marshal : Payload -> list byte * option error.
Variable json_Unmarshal : list byte -> Payload * option error.
Variable SchemeGroupVersion : string.

(** The bytes of the JSON string [Opaque], quotes included. *)
Definition opaque : list byte :=
  (Byte.x22 :: list_byte_of_string "Opaque" ++ [Byte.x22])%list.

(** The object that [Write] hands to the writer. *)
Definition secret (v : vaultK8s) (secret_name : string) (dataJSON : list byte)
  : Object :=
  {| APIVersion := SchemeGroupVersion;
     Kind := "Secret";
     MetaData_ := {| Name := secret_name; Namespace := namespace v |};
     Additional := {[ "type" := opaque; "data" := dataJSON ]} |}.

(** [func (v *vaultK8s) Write(name string, data map[string][]byte) error] *)
Definition Write (v : vaultK8s) (now : nat) (secret_name : string)
    (d : Payload) : option error :=
  let '(dataJSON, err) := json_Marshal d in
  match err with
  | Some e => Some e
  | None => objectWriter v now (secret v secret_name dataJSON)
  end.

(** [func (v *vaultK8s) Read(name string) (map[string][]byte, error)] *)
Definition Read (v : vaultK8s) (now : nat) (secret_name : string)
  : Payload * option error :=
  let '(obj, err) :=
    Get (k8s v) now "secret" secret_name {| Namespaced := true |} in
  match err with
  | Some e => (∅, Some e)
  | None =>
      let '(d, err) := json_Unmarshal (default [] (Additional obj !! "data")) in
      match err with
      | Some e => (∅, Some e)
      | None => (d, None)
      end
  end.

(** [func (v *vaultK8s) IsNotExist(err error) bool] *)
Definition IsNotExist (v : vaultK8s) (err : error) : bool :=
  IsNotExist_ (k8s v) err.

(** [*vaultK8s] as a [Vault]. *)
Definition as_Vault (v : vaultK8s) : Vault :=
  Build_Vault (Read v) (IsNotExist v).

End VaultK8s.
End VaultK8s.

(** ** Reading a trace *)

Section Traces.

Context {O : Type}.

Definition is_StarlarkCall (ev : Event O) : bool :=
  match ev with StarlarkCall _ _ => true | _ => false end.

Definition is_K8sDelete (ev : Event O) : bool :=
  match ev with K8sDelete _ _ _ => true | _ => false end.

(** In [tr], every call picked by [p] is made before every call picked by
    [q]. *)
Definition all_before (p q : Event O -> bool) (tr : list (Event O)) : Prop :=
  ∀ (i j : nat) (a b : Event O),
    tr !! i = Some a -> tr !! j = Some b ->
    p a = true -> q b = true -> (i < j)%nat.

(** The jewels among the entries of a mapping, in the order of the
    entries, and the reads of their secrets. *)
Fixpoint vaults (vs : list (string * Value)) : list jewel :=
  match vs with
  | [] => []
  | (_, VVault v) :: rest => v :: vaults rest
  | _ :: rest => vaults rest
  end.

Definition vault_reads (vs : list (string * Value)) : list (Event O) :=
  map (λ v, VaultRead (name v)) (vaults vs).

End Traces.

(** ** The three passes over the values, as the description states them

    Written from the words of the description, not from the loops of the
    source: what it means that the hook of every sub-chart is called, that
    every jewel reads its secret, that every jewel is released, each pass
    stopping at the first failure.  Each relation reads
    [pass entries trace entries' result trace']. *)

Section Protocol.

Context {O : Type}.
Variable starlark_Call :
  list (Event O) -> Callable -> K8sValue_ O -> chartImpl ->
  chartImpl * Completion * list (Event O).

(** The hook [hook] of every sub-chart is called with the client [k], in the
    order of the entries.  The function called is the one bound to [hook] in
    the methods of the sub-chart itself.  A call that does not return [nil]
    (an error, a panic) ends the pass, and that is its result; a sub-chart
    without such a method makes the call panic. *)
Inductive hooks_run (hook : string) (k : K8sValue_ O)
  : list (string * Value) -> list (Event O) ->
    list (string * Value) -> Completion -> list (Event O) -> Prop :=
| hooks_none t :
    hooks_run hook k [] t [] (Returns None) t
| hooks_pass key v rest t rest' r t' :
    (∀ sub, v ≠ VChart sub) ->
    hooks_run hook k rest t rest' r t' ->
    hooks_run hook k ((key, v) :: rest) t ((key, v) :: rest') r t'
| hooks_missing key sub rest t :
    methods sub !! hook = None ∨ methods sub !! hook = Some None ->
    hooks_run hook k ((key, VChart sub) :: rest) t
      ((key, VChart sub) :: rest) (Panics nil_dereference)
      (t ++ [StarlarkCall None k])
| hooks_next key sub f sub' made rest t rest' r t' :
    methods sub !! hook = Some (Some f) ->
    starlark_Call (t ++ [StarlarkCall (Some f) k]) f k sub
    = (sub', Returns None, made) ->
    hooks_run hook k rest (t ++ [StarlarkCall (Some f) k] ++ made) rest' r t' ->
    hooks_run hook k ((key, VChart sub) :: rest) t
      ((key, VChart sub') :: rest') r t'
| hooks_stop key sub f sub' r made rest t :
    methods sub !! hook = Some (Some f) ->
    starlark_Call (t ++ [StarlarkCall (Some f) k]) f k sub = (sub', r, made) ->
    r ≠ Returns None ->
    hooks_run hook k ((key, VChart sub) :: rest) t
      ((key, VChart sub') :: rest) r
      (t ++ [StarlarkCall (Some f) k] ++ made).

(** Every jewel reads its secret from the vault [v], in the order of the
    entries.  A secret that is found makes the jewel [Loaded] with it; one
    that is not found (as [v] classifies the error) leaves the jewel as it
    is; any other failure ends the pass with its error. *)
Inductive reads_run (v : Vault)
  : list (string * Value) -> list (Event O) ->
    list (string * Value) -> option error -> list (Event O) -> Prop :=
| reads_none t :
    reads_run v [] t [] None t
| reads_pass key val rest t rest' r t' :
    (∀ x, val ≠ VVault x) ->
    reads_run v rest t rest' r t' ->
    reads_run v ((key, val) :: rest) t ((key, val) :: rest') r t'
| reads_found key x d rest t rest' r t' :
    Read v (List.length t) (name x) = (d, None) ->
    reads_run v rest (t ++ [VaultRead (name x)]) rest' r t' ->
    reads_run v ((key, VVault x) :: rest) t
      ((key, VVault (mkJewel (backend x) stateLoaded (name x) d)) :: rest')
      r t'
| reads_absent key x d e rest t rest' r t' :
    Read v (List.length t) (name x) = (d, Some e) ->
    IsNotExist v e = true ->
    reads_run v rest (t ++ [VaultRead (name x)]) rest' r t' ->
    reads_run v ((key, VVault x) :: rest) t ((key, VVault x) :: rest') r t'
| reads_stop key x d e rest t :
    Read v (List.length t) (name x) = (d, Some e) ->
    IsNotExist v e = false ->
    reads_run v ((key, VVault x) :: rest) t ((key, VVault x) :: rest)
      (Some e) (t ++ [VaultRead (name x)]).

(** Every jewel is released, in the order of the entries: the [Delete] of
    its backend is called when the backend has one.  The first [Delete]
    that fails ends the pass with its error.  No jewel changes. *)
Inductive releases_run
  : list (string * Value) -> list (Event O) ->
    option error -> list (Event O) -> Prop :=
| releases_none t :
    releases_run [] t None t
| releases_pass key val rest t r t' :
    (∀ x, val ≠ VVault x) ->
    releases_run rest t r t' ->
    releases_run ((key, val) :: rest) t r t'
| releases_simple key x rest t r t' :
    complex (backend x) = None ->
    releases_run rest t r t' ->
    releases_run ((key, VVault x) :: rest) t r t'
| releases_next key x cx rest t r t' :
    complex (backend x) = Some cx ->
    Delete cx (List.length t) = None ->
    releases_run rest (t ++ [BackendDelete (Name (backend x))]) r t' ->
    releases_run ((key, VVault x) :: rest) t r t'
| releases_stop key x cx e rest t :
    complex (backend x) = Some cx ->
    Delete cx (List.length t) = Some e ->
    releases_run ((key, VVault x) :: rest) t (Some e)
      (t ++ [BackendDelete (Name (backend x))]).

End Protocol.

(** ** Concrete collaborators, to run the model on *)

Module Examples.

Definition generated (now : nat) : list byte := repeat "s"%byte (S now).

(** A simple backend with the keys [{"password": "pwd"}]: it keeps a
    password that exists and makes one, different on every call, when
    there is none. *)
Definition password_backend : JewelBackend :=
  {| Name := "password";
     Keys := {[ "password" := "pwd" ]};
     Apply := λ now d,
       match d !! "pwd" with
       | Some _ => (d, None)
       | None => (<[ "pwd" := generated now ]> d, None)
       end;
     complex := None |}.

(** A backend with [Template] and [Delete]. *)
Definition cert_backend : JewelBackend :=
  {| Name := "certificate";
     Keys := {[ "key" := "tls.key" ]};
     Apply := λ now d, (d, None);
     complex := Some {| Template := λ now, ({[ "tls.key" := generated now ]}, None);
                        Delete := λ now, None |} |}.

(** A backend whose every operation fails. *)
Definition broken_backend : JewelBackend :=
  {| Name := "broken";
     Keys := {[ "token" := "tok" ]};
     Apply := λ now d, (∅, Some (OtherError "backend unavailable"));
     complex := None |}.

Definition not_found : error := OtherError "secret not found".

(** A vault that holds the secret [stored] and nothing else; [flaky]
    fails on every read for another reason. *)
Definition one_secret_vault : Vault :=
  {| Read := λ now n,
       if String.eqb n "stored" then ({[ "pwd" := generated 0 ]}, None)
       else (∅, Some not_found);
     IsNotExist := λ e,
       match e with
       | OtherError m => String.eqb m "secret not found"
       | _ => false
       end |}.

Definition flaky_vault : Vault :=
  {| Read := λ now n, (∅, Some (OtherError "connection refused"));
     IsNotExist := IsNotExist one_secret_vault |}.

(** Manifests as text; a decoded stream as the list of its documents. *)
Definition client (v : Vault) (answer : option error) : K8sValue_ (list string) :=
  {| k8s_vault := v;
     k8s_Apply := λ now objs opts, answer;
     k8s_Delete := λ now objs opts, answer |}.

(** A renderer whose templates read no jewel. *)
Definition render (hist : list (Event (list string))) (c : chartImpl)
    (glob : string) (flag : bool)
  : chartImpl * string * list (Event (list string)) :=
  (c, "manifests of " ++ Chart.GetName c, []).

Definition documents (s : string) : list string := [s].

(** A renderer whose templates interpolate every field of every jewel of the
    chart: each jewel runs [templateValues]. *)
Definition render_reading (hist : list (Event (list string))) (c : chartImpl)
    (glob : string) (flag : bool)
  : chartImpl * string * list (Event (list string)) :=
  let '((vs, _), t) :=
    Chart.eachVault (values c)
      (λ v, '(v', _) ← Jewel.templateValues v; mret (v', None)) hist in
  (Chart.set_values c vs, "manifests of " ++ Chart.GetName c,
   drop (List.length hist) t).

(** Hooks that do nothing and succeed, and hooks that do nothing and fail. *)
Definition hooks_succeed (hist : list (Event (list string))) (f : Callable)
    (k : K8sValue_ (list string)) (sub : chartImpl)
  : chartImpl * Completion * list (Event (list string)) :=
  (sub, Returns None, []).

Definition hooks_refuse (hist : list (Event (list string))) (f : Callable)
    (k : K8sValue_ (list string)) (sub : chartImpl)
  : chartImpl * Completion * list (Event (list string)) :=
  (sub, Returns (Some (OtherError "hook failed")), []).

(** The hooks as the builtins of [applyFunction] and [deleteFunction]: the
    builtin named [apply at ...] runs [apply] of the sub-chart and the one
    named [delete at ...] runs its [delete], down to [depth] levels of
    sub-charts. *)
Fixpoint builtins (depth : nat) (hist : list (Event (list string)))
    (f : Callable) (k : K8sValue_ (list string)) (sub : chartImpl)
  : chartImpl * Completion * list (Event (list string)) :=
  match depth, f with
  | S d, Builtin fname =>
      if String.prefix "apply at " fname then
        let '((sub', r), t) :=
          Chart.apply (builtins d) render_reading documents sub k hist in
        (sub', r, drop (List.length hist) t)
      else if String.prefix "delete at " fname then
        let '((sub', r), t) :=
          Chart.delete (builtins d) render_reading documents sub k hist in
        (sub', r, drop (List.length hist) t)
      else (sub, Returns (Some (OtherError "unknown builtin")), [])
  | _, _ => (sub, Returns (Some (OtherError "not a builtin")), [])
  end.

(** Hashes as the interpreter gives them for [None] and the booleans;
    lists are unhashable; strings and the rest get a fixed number. *)
Definition hash_of (v : Value) : Z * option error :=
  match v with
  | VNone => (0, None)
  | VBool b => (if b then 1 else 0, None)
  | VString s => (Z.of_nat (String.length s), None)
  | VLib tag =>
      if String.eqb tag "list"
      then (0, Some (OtherError "unhashable type: list"))
      else (7, None)
  | _ => (11, None)
  end.

Definition chart_of (n : string) (vs : list (string * Value)) : chartImpl :=
  {| clazz := {| class_Name := n; class_Version := "1.0.0" |};
     values := vs;
     methods := {[ "apply" := Some (Builtin ("apply at " ++ n ++ "/Chart.star"));
                   "delete" := Some (Builtin ("delete at " ++ n ++ "/Chart.star")) ]};
     dir := n;
     namespace := "default";
     suffix := "" |}.

Definition database : chartImpl := chart_of "database" [].

(** A chart with one sub-chart and one jewel. *)
Definition shop : chartImpl :=
  chart_of "shop"
    [ ("db", VChart database);
      ("tls", VVault (NewJewel cert_backend "shop-tls"));
      ("replicas", VLib "int") ].

(** A client whose every operation succeeds, on the vault above. *)
Definition cluster : K8sValue_ (list string) := client one_secret_vault None.

(** The same chart with its entries in the other order. *)
Definition shop_reordered : chartImpl :=
  chart_of "shop"
    [ ("replicas", VLib "int");
      ("tls", VVault (NewJewel cert_backend "shop-tls"));
      ("db", VChart database) ].

Definition flags (first second : string) : chartImpl :=
  chart_of "flags" [ (first, VBool (String.eqb first "a"));
                     (second, VBool (String.eqb second "a")) ].

(** The mapping with the values of [a] and [b] exchanged, ranged [b]
    first. *)
Definition flags_exchanged : chartImpl :=
  chart_of "flags" [ ("b", VBool true); ("a", VBool false) ].

(** A vault on the cluster that holds one secret, [shop-tls], written by
    [VaultK8s.Write]; the JSON codec of the example knows one payload. *)
Definition tls_payload : Payload := {[ "tls.key" := generated 0 ]}.
Definition tls_json : list byte := list_byte_of_string "{tls.key: cw==}".

Definition marshal (d : Payload) : list byte * option error := (tls_json, None).
Definition unmarshal (bs : list byte) : Payload * option error :=
  match bs with
  | [] => (∅, Some (OtherError "unexpected end of JSON input"))
  | _ => (tls_payload, None)
  end.

Definition cluster_vault : VaultK8s.vaultK8s :=
  {| VaultK8s.k8s :=
       {| VaultK8s.Get := λ now kind n opts,
            if String.eqb n "shop-tls"
            then ({| VaultK8s.APIVersion := "v1";
                     VaultK8s.Kind := "Secret";
                     VaultK8s.MetaData_ :=
                       {| VaultK8s.Name := n; VaultK8s.Namespace := "default" |};
                     VaultK8s.Additional :=
                       {[ "type" := VaultK8s.opaque; "data" := tls_json ]} |},
                  None)
            else ({| VaultK8s.APIVersion := ""; VaultK8s.Kind := "";
                     VaultK8s.MetaData_ :=
                       {| VaultK8s.Name := ""; VaultK8s.Namespace := "" |};
                     VaultK8s.Additional := ∅ |},
                  Some not_found);
          VaultK8s.IsNotExist_ := IsNotExist one_secret_vault |};
     VaultK8s.objectWriter := λ now obj, None;
     VaultK8s.namespace := "default" |}.

(** A chart whose sub-chart has no methods at all, and one whose sub-chart
    has a jewel of its own. *)
Definition orphan : chartImpl :=
  chart_of "orphan"
    [ ("db", VChart (mkChart {| class_Name := "bare"; class_Version := "" |}
                       [] ∅ "bare" "default" "")) ].

Definition mall : chartImpl :=
  chart_of "mall"
    [ ("shop", VChart shop);
      ("pwd", VVault (NewJewel password_backend "mall-pwd")) ].

(** A vault that holds nothing, and a client on it. *)
Definition empty_vault : Vault :=
  {| Read := λ now n, (∅, Some not_found);
     IsNotExist := IsNotExist one_secret_vault |}.

Definition fresh_cluster : K8sValue_ (list string) := client empty_vault None.

Definition nothing_stored (now : nat) (n : string)
  : ∃ d e, Read empty_vault now n = (d, Some e)
           ∧ IsNotExist empty_vault e = true :=
  ex_intro _ ∅ (ex_intro _ not_found (conj eq_refl eq_refl)).

(** Overrides of two values, as decoded YAML (numbers only). *)
Definition overrides : list (string * nat) := [ ("replicas", 3%nat); ("port", 80%nat) ].
Definition merge_last (old : option Value) (new : Value) : Value := new.
Definition number (n : nat) : Value := VLib (if Nat.eqb n 3 then "3" else "int").

End Examples.

(** * Properties *)

Local Open Scope list_scope.


(** ** The jewel's state machine *)

Section JewelFacts.

Context {O : Type}.
Implicit Types (c : jewel) (t : list (Event O)).

Lemma ensure_ready c t :
  state c = stateReady -> Jewel.ensure c t = ((c, None), t).
Proof.
  intros Hs. unfold Jewel.ensure. rewrite Hs. reflexivity.
Qed.

Lemma ensure_loaded c t :
  state c = stateLoaded ->
  Jewel.ensure c t =
    (match Apply (backend c) (List.length t) (data c) with
     | (d, None) => (mkJewel (backend c) stateReady (name c) d, None)
     | (_, Some e) => (c, Some e)
     end, t ++ [BackendApply (Name (backend c)) (data c)]).
Proof.
  intros Hs. unfold Jewel.ensure. rewrite Hs. cbn.
  unfold mbind, Eff_bind, call.
  destruct (Apply (backend c) (List.length t) (data c)) as [d [e|]];
    reflexivity.
Qed.

Lemma ensure_init_template c t cx :
  state c = stateInit -> complex (backend c) = Some cx ->
  Jewel.ensure c t =
    (match Template cx (List.length t) with
     | (d, None) => (mkJewel (backend c) stateReady (name c) d, None)
     | (_, Some e) => (c, Some e)
     end, t ++ [BackendTemplate (Name (backend c))]).
Proof.
  intros Hs Hcx. unfold Jewel.ensure. rewrite Hs, Hcx. cbn.
  unfold mbind, Eff_bind, call.
  destruct (Template cx (List.length t)) as [d [e|]]; reflexivity.
Qed.

Lemma ensure_init_apply c t :
  state c = stateInit -> complex (backend c) = None ->
  Jewel.ensure c t =
    (match Apply (backend c) (List.length t) ∅ with
     | (d, None) => (mkJewel (backend c) stateReady (name c) d, None)
     | (_, Some e) => (c, Some e)
     end, t ++ [BackendApply (Name (backend c)) ∅]).
Proof.
  intros Hs Hcx. unfold Jewel.ensure. rewrite Hs, Hcx. cbn.
  unfold mbind, Eff_bind, call.
  destruct (Apply (backend c) (List.length t) ∅) as [d [e|]]; reflexivity.
Qed.

(** An [ensure] that fails returns the jewel as it was. *)
Lemma ensure_error_unchanged c t c' e t' :
  Jewel.ensure c t = ((c', Some e), t') -> c' = c.
Proof.
  unfold Jewel.ensure; run_eff.
  repeat case_match; run_eff; intros; simplify_eq; reflexivity.
Qed.

(** An [ensure] that succeeds leaves the jewel [Ready], with the backend
    and the name it had. *)
Lemma ensure_ok_ready c t c' t' :
  Jewel.ensure c t = ((c', None), t') ->
  state c' = stateReady ∧ backend c' = backend c ∧ name c' = name c.
Proof.
  unfold Jewel.ensure; run_eff.
  repeat case_match; run_eff; intros; simplify_eq; cbn; auto.
  split; [lia | auto].
Qed.

Lemma ensure_backend c t :
  backend (Jewel.ensure c t).1.1 = backend c.
Proof.
  unfold Jewel.ensure; run_eff.
  repeat case_match; run_eff; intros; simplify_eq; reflexivity.
Qed.

End JewelFacts.

Section JewelClaims.

Context {O : Type}.
Implicit Types (c : jewel) (t : list (Event O)).

(** A field access that succeeded on a declared key has made the jewel
    [Ready]. *)
Lemma Attr_ok_ready c t attr key c1 v t1 :
  attr ≠ "name"%string -> Keys (backend c) !! attr = Some key ->
  Jewel.Attr c attr t = ((c1, (v, None)), t1) ->
  state c1 = stateReady ∧ backend c1 = backend c
  ∧ v = VString (dataValue (data c1 !! key)).
Proof.
  intros Hn Hk. unfold Jewel.Attr.
  destruct (String.eqb_spec attr "name") as [->|_]; [done|].
  rewrite Hk. run_eff.
  destruct (Jewel.ensure c t) as [[c' [e|]] t'] eqn:He; run_eff;
    intros; simplify_eq.
  apply ensure_ok_ready in He as (? & ? & ?). auto.
Qed.

(** C3.  [ensure] dispatches on the state of the jewel.  In [Ready] it
    returns at once: no call is added to the trace.  In [Loaded] it makes
    one call, the backend's [Apply] on the data the jewel holds.  In [Init]
    it makes one call: the backend's [Template] when the backend has one,
    else [Apply] on an empty payload.  When the call succeeds, what it
    returned becomes the data and the state becomes [Ready]; when it fails,
    the error is returned and the jewel is as it was.  Hence a second
    access of a field that has been read returns the same text and makes no
    call, and neither does a further [ensure]. *)
Theorem ensure_dispatches_on_state c t :
  (state c = stateReady -> Jewel.ensure c t = ((c, None), t))
  ∧ (state c = stateLoaded ->
     Jewel.ensure c t =
       (match Apply (backend c) (List.length t) (data c) with
        | (d, None) => (mkJewel (backend c) stateReady (name c) d, None)
        | (_, Some e) => (c, Some e)
        end, t ++ [BackendApply (Name (backend c)) (data c)]))
  ∧ (state c = stateInit ->
     ∀ cx, complex (backend c) = Some cx ->
     Jewel.ensure c t =
       (match Template cx (List.length t) with
        | (d, None) => (mkJewel (backend c) stateReady (name c) d, None)
        | (_, Some e) => (c, Some e)
        end, t ++ [BackendTemplate (Name (backend c))]))
  ∧ (state c = stateInit -> complex (backend c) = None ->
     Jewel.ensure c t =
       (match Apply (backend c) (List.length t) ∅ with
        | (d, None) => (mkJewel (backend c) stateReady (name c) d, None)
        | (_, Some e) => (c, Some e)
        end, t ++ [BackendApply (Name (backend c)) ∅]))
  ∧ (∀ c' e t', Jewel.ensure c t = ((c', Some e), t') -> c' = c)
  ∧ (∀ attr key c1 v t1,
       attr ≠ "name"%string -> Keys (backend c) !! attr = Some key ->
       Jewel.Attr c attr t = ((c1, (v, None)), t1) ->
       ∀ t2, Jewel.Attr c1 attr t2 = ((c1, (v, None)), t2)
             ∧ (∀ other, ∃ r, Jewel.Attr c1 other t2 = ((c1, r), t2))
             ∧ Jewel.ensure c1 t2 = ((c1, None), t2)).
Proof.
  split; [apply ensure_ready|].
  split; [apply ensure_loaded|].
  split; [intros Hs cx; apply ensure_init_template; assumption|].
  split; [apply ensure_init_apply|].
  split; [intros c' e t'; apply ensure_error_unchanged|].
  intros attr key c1 v t1 Hn Hk Ha t2.
  destruct (Attr_ok_ready _ _ _ _ _ _ _ Hn Hk Ha) as (Hs & Hb & ->).
  split; [|split; [|apply ensure_ready; assumption]].
  - unfold Jewel.Attr.
    destruct (String.eqb_spec attr "name") as [->|_]; [done|].
    rewrite Hb, Hk. run_eff. rewrite (ensure_ready c1 t2 Hs). reflexivity.
  - intros other. unfold Jewel.Attr.
    destruct (String.eqb other "name"); [eexists; reflexivity|].
    destruct (Keys (backend c1) !! other); [|eexists; reflexivity].
    run_eff. rewrite (ensure_ready c1 t2 Hs). eexists; reflexivity.
Qed.

(** C4.  [read] on a jewel in state [Init].  When the vault's [Read] fails
    and the vault classifies the error as not-found, [read] returns no
    error and the jewel is as it was, still in [Init]; when [Read] fails
    otherwise, that error is returned and the jewel is as it was; when
    [Read] succeeds, the jewel holds the payload read and is [Loaded].  In
    each case the one call made is the vault's [Read] of the jewel's
    name. *)
Theorem read_outcomes c (v : Vault) t :
  state c = stateInit ->
  ∀ d err, Read v (List.length t) (name c) = (d, err) ->
    (∀ e, err = Some e -> IsNotExist v e = true ->
       ∃ c', Jewel.read c v t = ((c', None), t ++ [VaultRead (name c)])
             ∧ state c' = stateInit ∧ c' = c)
    ∧ (∀ e, err = Some e -> IsNotExist v e = false ->
       Jewel.read c v t = ((c, Some e), t ++ [VaultRead (name c)]))
    ∧ (err = None ->
       Jewel.read c v t =
         ((mkJewel (backend c) stateLoaded (name c) d, None),
          t ++ [VaultRead (name c)])).
Proof.
  intros Hs d err Hr. unfold Jewel.read. run_eff. rewrite Hr.
  split; [|split].
  - intros e -> Hne. exists c. rewrite Hne. done.
  - intros e -> Hne. rewrite Hne. done.
  - intros ->. done.
Qed.

(** C6.  [Attr] of a jewel.  The key [name] gives the jewel's name and
    makes no call.  Any other key that the backend does not declare gives
    a no-such-attribute error that carries the backend's name and the key,
    again without a call.  A declared key runs [ensure]; its error, if any,
    is returned; otherwise the payload under the internal key is returned
    as text: the text made of the very bytes of the payload, and the empty
    text when there is no such payload. *)
Theorem jewel_Attr_resolution c t :
  Jewel.Attr c "name" t = ((c, (VString (name c), None)), t)
  ∧ (∀ attr, attr ≠ "name"%string -> Keys (backend c) !! attr = None ->
       Jewel.Attr c attr t =
         ((c, (VNone,
               Some (NoSuchAttrError
                       (Name (backend c) ++ " has no ." ++ attr
                          ++ " attribute")%string))), t))
  ∧ (∀ attr key, attr ≠ "name"%string -> Keys (backend c) !! attr = Some key ->
       ∀ c' err t', Jewel.ensure c t = ((c', err), t') ->
         Jewel.Attr c attr t =
           ((c', match err with
                 | Some e => (VNone, Some e)
                 | None => (VString (dataValue (data c' !! key)), None)
                 end), t')
         ∧ (data c' !! key = None -> err = None ->
            Jewel.Attr c attr t = ((c', (VString "", None)), t'))
         ∧ (∀ b, data c' !! key = Some b -> err = None ->
              Jewel.Attr c attr t
              = ((c', (VString (string_of_list_byte b), None)), t'))).
Proof.
  split; [reflexivity|]. split.
  - intros attr Hn Hk. unfold Jewel.Attr.
    destruct (String.eqb_spec attr "name") as [->|_]; [done|].
    rewrite Hk. reflexivity.
  - intros attr key Hn Hk c' err t' He. unfold Jewel.Attr.
    destruct (String.eqb_spec attr "name") as [->|_]; [done|].
    rewrite Hk. run_eff. rewrite He.
    split; [destruct err; reflexivity|]. split.
    + intros -> ->. reflexivity.
    + intros b -> ->. reflexivity.
Qed.

(** C10.  [templateValues] has no error to report: it returns a mapping
    whatever [ensure] did.  The mapping has exactly the declared field
    names, each bound to the text of the payload that the jewel holds after
    [ensure] under the field's internal key: the text made of the very bytes
    of that payload, and the empty text when there is none.  When [ensure]
    failed, that is the payload the jewel held before. *)
Theorem templateValues_never_fails c t :
  ∃ c' err t' tv,
    Jewel.ensure c t = ((c', err), t')
    ∧ Jewel.templateValues c t = ((c', tv), t')
    ∧ (∀ field, tv !! field
                = (λ key, dataValue (data c' !! key))
                    <$> (Keys (backend c) !! field))
    ∧ (∀ field key, Keys (backend c) !! field = Some key ->
         data c' !! key = None -> tv !! field = Some ""%string)
    ∧ (∀ field key b, Keys (backend c) !! field = Some key ->
         data c' !! key = Some b ->
         tv !! field = Some (string_of_list_byte b))
    ∧ (err ≠ None -> c' = c).
Proof.
  destruct (Jewel.ensure c t) as [[c' err] t'] eqn:He.
  exists c', err, t'.
  exists ((λ key, dataValue (data c' !! key)) <$> Keys (backend c')).
  pose proof (ensure_backend c t) as Hb. rewrite He in Hb. cbn in Hb.
  split; [reflexivity|].
  split; [unfold Jewel.templateValues; run_eff; rewrite He; reflexivity|].
  split; [intros field; rewrite lookup_fmap, Hb; reflexivity|].
  split.
  - intros field key Hk Hd. rewrite lookup_fmap, Hb, Hk. cbn.
    rewrite Hd. reflexivity.
  - split.
    { intros field key b Hk Hd. rewrite lookup_fmap, Hb, Hk. cbn.
      rewrite Hd. reflexivity. }
    destruct err as [e|]; [|done]. intros _.
    eapply ensure_error_unchanged; eassumption.
Qed.

End JewelClaims.

(** The theorems above, at concrete jewels. *)

Lemma ensure_dispatches_on_state_witness :
  Jewel.ensure (O := unit) (NewJewel Examples.password_backend "db") []
  = ((mkJewel Examples.password_backend stateReady "db"
        {[ "pwd" := Examples.generated 0 ]}, None),
     [BackendApply "password" ∅]).
Proof.
  apply (proj1 (proj2 (proj2 (proj2
           (ensure_dispatches_on_state
              (NewJewel Examples.password_backend "db") []))))).
  - reflexivity.
  - reflexivity.
Defined.

Lemma read_outcomes_witness :
  ∃ c', Jewel.read (O := unit) (NewJewel Examples.password_backend "absent")
          Examples.one_secret_vault []
        = ((c', None), [VaultRead "absent"])
        ∧ state c' = stateInit
        ∧ c' = NewJewel Examples.password_backend "absent".
Proof.
  apply (proj1 (read_outcomes (NewJewel Examples.password_backend "absent")
                  Examples.one_secret_vault [] eq_refl
                  ∅ (Some Examples.not_found) eq_refl)
           Examples.not_found eq_refl eq_refl).
Defined.

Lemma jewel_Attr_resolution_witness :
  Jewel.Attr (O := unit) (NewJewel Examples.password_backend "db") "password" []
  = ((mkJewel Examples.password_backend stateReady "db"
        {[ "pwd" := Examples.generated 0 ]},
      (VString "s", None)), [BackendApply "password" ∅]).
Proof.
  exact (proj2 (proj2
           (proj2 (proj2 (jewel_Attr_resolution
                            (NewJewel Examples.password_backend "db") []))
              "password" "pwd" ltac:(discriminate) eq_refl
              (mkJewel Examples.password_backend stateReady "db"
                 {[ "pwd" := Examples.generated 0 ]})
              None [BackendApply "password" ∅] eq_refl))
           (Examples.generated 0) eq_refl eq_refl).
Defined.

Lemma templateValues_never_fails_witness :
  ∃ c' err t' tv,
    Jewel.ensure (O := unit) (NewJewel Examples.broken_backend "api") []
    = ((c', err), t')
    ∧ Jewel.templateValues (NewJewel Examples.broken_backend "api") []
      = ((c', tv), t')
    ∧ (∀ field, tv !! field
                = (λ key, dataValue (data c' !! key))
                    <$> (Keys Examples.broken_backend !! field))
    ∧ (∀ field key, Keys Examples.broken_backend !! field = Some key ->
         data c' !! key = None -> tv !! field = Some ""%string)
    ∧ (∀ field key b, Keys Examples.broken_backend !! field = Some key ->
         data c' !! key = Some b ->
         tv !! field = Some (string_of_list_byte b))
    ∧ (err ≠ None -> c' = NewJewel Examples.broken_backend "api").
Proof.
  exact (templateValues_never_fails (NewJewel Examples.broken_backend "api") []).
Defined.

(** A broken backend: [templateValues] still answers, with the empty text. *)
Example templateValues_broken_backend :
  Jewel.templateValues (O := unit) (NewJewel Examples.broken_backend "api") []
  = ((NewJewel Examples.broken_backend "api", {[ "token" := ""%string ]}),
     [BackendApply "broken" ∅]).
Proof. vm_compute. reflexivity. Qed.

(** A backend that fails while the jewel holds a payload: the mapping still
    has the text of that payload. *)
Example templateValues_keeps_held_payload :
  let c := mkJewel Examples.broken_backend stateLoaded "api"
             {[ "tok" := Examples.generated 2 ]} in
  Jewel.templateValues (O := unit) c []
  = ((c, {[ "token" := "sss"%string ]}),
     [BackendApply "broken" {[ "tok" := Examples.generated 2 ]}]).
Proof. vm_compute. reflexivity. Qed.

(** A value cannot be of a kind and of none. *)
Ltac not_that_kind :=
  exfalso;
  match goal with
  | H : ∀ _, ?v ≠ _ |- _ => by eapply H
  end.

(** Two answers to one question are one answer. *)
Ltac same_answers :=
  simplify_eq;
  repeat match goal with
         | H1 : ?q = ?a, H2 : ?q = ?b |- _ =>
             tryif constr_eq a b then fail else
               (assert (a = b) by (rewrite <- H1; exact H2); clear H2;
                simplify_eq)
         end.

(** ** The loops over the values of a chart *)

Section ChartLoops.

Context {O : Type}.
Variable starlark_Call :
  list (Event O) -> Callable -> K8sValue_ O -> chartImpl ->
  chartImpl * Completion * list (Event O).
Implicit Types (vs : list (string * Value)) (t : list (Event O)).

(** One turn of each loop. *)
Lemma eachSubChart_chart key (sub : chartImpl) vs
    (block : chartImpl -> Eff O (chartImpl * Completion)) t :
  Chart.eachSubChart ((key, VChart sub) :: vs) block t
  = match block sub t with
    | ((sub', Returns None), t') =>
        let '((vs', r), t'') := Chart.eachSubChart vs block t' in
        (((key, VChart sub') :: vs', r), t'')
    | ((sub', r), t') => (((key, VChart sub') :: vs, r), t')
    end.
Proof.
  cbn. run_eff. destruct (block sub t) as [[sub' [[e|]|msg]] t'];
    try reflexivity.
  destruct (Chart.eachSubChart vs block t') as [[vs' r] t'']. reflexivity.
Qed.

Lemma eachSubChart_other key v vs
    (block : chartImpl -> Eff O (chartImpl * Completion)) t :
  (∀ sub, v ≠ VChart sub) ->
  Chart.eachSubChart ((key, v) :: vs) block t
  = let '((vs', r), t') := Chart.eachSubChart vs block t in
    (((key, v) :: vs', r), t').
Proof.
  intros Hv. destruct v; try (exfalso; by eapply Hv); cbn; run_eff;
    destruct (Chart.eachSubChart vs block t) as [[vs' r] t']; reflexivity.
Qed.

Lemma eachVault_vault key (x : jewel) vs
    (block : jewel -> Eff O (jewel * option error)) t :
  Chart.eachVault ((key, VVault x) :: vs) block t
  = match block x t with
    | ((x', Some e), t') => (((key, VVault x') :: vs, Some e), t')
    | ((x', None), t') =>
        let '((vs', r), t'') := Chart.eachVault vs block t' in
        (((key, VVault x') :: vs', r), t'')
    end.
Proof.
  cbn. run_eff. destruct (block x t) as [[x' [e|]] t']; [reflexivity|].
  destruct (Chart.eachVault vs block t') as [[vs' r] t'']. reflexivity.
Qed.

Lemma eachVault_other key v vs
    (block : jewel -> Eff O (jewel * option error)) t :
  (∀ x, v ≠ VVault x) ->
  Chart.eachVault ((key, v) :: vs) block t
  = let '((vs', r), t') := Chart.eachVault vs block t in
    (((key, v) :: vs', r), t').
Proof.
  intros Hv. destruct v; try (exfalso; by eapply Hv); cbn; run_eff;
    destruct (Chart.eachVault vs block t) as [[vs' r] t']; reflexivity.
Qed.

(** Either a value is a sub-chart, or it is none; likewise for jewels. *)
Lemma chart_or_not (v : Value) : (∃ sub, v = VChart sub) ∨ ∀ sub, v ≠ VChart sub.
Proof. destruct v; eauto. Qed.

Lemma vault_or_not (v : Value) : (∃ x, v = VVault x) ∨ ∀ x, v ≠ VVault x.
Proof. destruct v; eauto. Qed.

(** The hook block, by what the methods of the sub-chart hold. *)
Lemma call_hook_run hook (k : K8sValue_ O) (sub : chartImpl) t :
  Chart.call_hook starlark_Call hook k sub t
  = match methods sub !! hook with
    | Some (Some f) =>
        let t1 := t ++ [StarlarkCall (Some f) k] in
        let '(sub', r, made) := starlark_Call t1 f k sub in
        ((sub', r), t1 ++ made)
    | _ => ((sub, Panics nil_dereference), t ++ [StarlarkCall None k])
    end.
Proof.
  unfold Chart.call_hook, Chart.method.
  destruct (methods sub !! hook) as [[f|]|]; reflexivity.
Qed.

(** [eachSubChart] with the hook block makes the pass of the hooks. *)
Lemma eachSubChart_hooks hook (k : K8sValue_ O) vs t :
  ∃ vs' r t',
    Chart.eachSubChart vs (Chart.call_hook starlark_Call hook k) t
    = ((vs', r), t')
    ∧ hooks_run starlark_Call hook k vs t vs' r t'.
Proof.
  revert t. induction vs as [|[key v] rest IH]; intros t.
  - eexists _, _, _. split; [reflexivity | constructor].
  - destruct (chart_or_not v) as [[sub ->]|Hv].
    + rewrite eachSubChart_chart, call_hook_run.
      destruct (methods sub !! hook) as [[f|]|] eqn:Hm;
        [|eexists _, _, _; split; [reflexivity|]; apply hooks_missing; auto..].
      cbn zeta.
      destruct (starlark_Call (t ++ [StarlarkCall (Some f) k]) f k sub)
        as [[sub' r] made] eqn:Hc.
      destruct r as [[e|]|msg].
      * eexists _, _, _. split; [reflexivity|].
        rewrite <- app_assoc. by eapply hooks_stop.
      * destruct (IH ((t ++ [StarlarkCall (Some f) k]) ++ made))
          as (vs' & r & t' & He & Hrun).
        rewrite He. eexists _, _, _. split; [reflexivity|].
        eapply hooks_next; [exact Hm | exact Hc |].
        by rewrite app_assoc.
      * eexists _, _, _. split; [reflexivity|].
        rewrite <- app_assoc. by eapply hooks_stop.
    + rewrite (eachSubChart_other _ _ _ _ _ Hv).
      destruct (IH t) as (vs' & r & t' & He & Hrun). rewrite He.
      eexists _, _, _. split; [reflexivity|]. by constructor.
Qed.

(** A pass of the hooks only adds calls to the trace. *)
Lemma hooks_run_extends hook (k : K8sValue_ O) vs t vs' r t' :
  hooks_run starlark_Call hook k vs t vs' r t' -> ∃ made, t' = t ++ made.
Proof.
  induction 1 as [t | key v rest t rest' r t' _ _ IH | key sub rest t _
                 | key sub f sub' made rest t rest' r t' _ _ _ IH
                 | key sub f sub' r made rest t _ _ _].
  - exists []. by rewrite app_nil_r.
  - exact IH.
  - by eexists.
  - destruct IH as [more ->]. eexists. by rewrite <- !app_assoc.
  - by eexists.
Qed.

(** The three passes are functions of the entries, the trace and the
    answers of the collaborators: each has one outcome. *)
Lemma hooks_run_unique hook (k : K8sValue_ O) vs t vs1 r1 t1 vs2 r2 t2 :
  hooks_run starlark_Call hook k vs t vs1 r1 t1 ->
  hooks_run starlark_Call hook k vs t vs2 r2 t2 ->
  vs1 = vs2 ∧ r1 = r2 ∧ t1 = t2.
Proof.
  intros H1. revert vs2 r2 t2.
  induction H1 as [t | key v rest t rest' r t' Hv _ IH | key sub rest t Hm
                  | key sub f sub' made rest t rest' r t' Hm Hc _ IH
                  | key sub f sub' r made rest t Hm Hc Hr];
    intros vs2 r2 t2 H2; inversion H2; same_answers;
    try done; try not_that_kind; try (destruct Hm; congruence);
    try (match goal with H : _ ∨ _ |- _ => destruct H; congruence end);
    match goal with H : hooks_run _ _ _ _ _ _ _ _ |- _ =>
      apply IH in H as (-> & -> & ->) end; done.
Qed.

Lemma reads_run_unique (v : Vault) vs t vs1 r1 t1 vs2 r2 t2 :
  reads_run v vs t vs1 r1 t1 -> reads_run v vs t vs2 r2 t2 ->
  vs1 = vs2 ∧ r1 = r2 ∧ t1 = t2.
Proof.
  intros H1. revert vs2 r2 t2.
  induction H1 as [t | key val rest t rest' r t' Hv _ IH
                  | key x d rest t rest' r t' Hr _ IH
                  | key x d e rest t rest' r t' Hr Hne _ IH
                  | key x d e rest t Hr Hne];
    intros vs2 r2 t2 H2; inversion H2; same_answers;
    try done; try not_that_kind;
    match goal with H : reads_run _ _ _ _ _ _ |- _ =>
      apply IH in H as (-> & -> & ->) end; done.
Qed.

Lemma releases_run_unique vs t r1 t1 r2 t2 :
  releases_run (O := O) vs t r1 t1 -> releases_run vs t r2 t2 ->
  r1 = r2 ∧ t1 = t2.
Proof.
  intros H1. revert r2 t2.
  induction H1 as [t | key val rest t r t' Hv _ IH
                  | key x rest t r t' Hc _ IH
                  | key x cx rest t r t' Hc Hd _ IH
                  | key x cx e rest t Hc Hd];
    intros r2 t2 H2; inversion H2; same_answers;
    try done; try not_that_kind;
    match goal with H : releases_run _ _ _ _ |- _ =>
      apply IH in H as (-> & ->) end; done.
Qed.

Lemma read_run (x : jewel) (v : Vault) t :
  Jewel.read x v t
  = (match Read v (List.length t) (name x) with
     | (d, None) => (mkJewel (backend x) stateLoaded (name x) d, None)
     | (_, Some e) => (x, if IsNotExist v e then None else Some e)
     end, t ++ [VaultRead (name x)]).
Proof.
  unfold Jewel.read. run_eff.
  destruct (Read v (List.length t) (name x)) as [d [e|]]; [|reflexivity].
  destruct (IsNotExist v e); reflexivity.
Qed.

(** [eachVault] with the read block makes the pass of the reads. *)
Lemma eachVault_reads (v : Vault) vs t :
  ∃ vs' r t',
    Chart.eachVault vs (λ x, Jewel.read x v) t = ((vs', r), t')
    ∧ reads_run v vs t vs' r t'.
Proof.
  revert t. induction vs as [|[key val] rest IH]; intros t.
  - eexists _, _, _. split; [reflexivity | constructor].
  - destruct (vault_or_not val) as [[x ->]|Hv].
    + rewrite eachVault_vault, read_run.
      destruct (IH (t ++ [VaultRead (name x)])) as (vs' & r & t' & He & Hrun).
      destruct (Read v (List.length t) (name x)) as [d [e|]] eqn:Hr;
        [destruct (IsNotExist v e) eqn:Hne|].
      * rewrite He. eexists _, _, _. split; [reflexivity|].
        by eapply reads_absent.
      * eexists _, _, _. split; [reflexivity|]. by eapply reads_stop.
      * rewrite He. eexists _, _, _. split; [reflexivity|].
        by eapply reads_found.
    + rewrite (eachVault_other _ _ _ _ _ Hv).
      destruct (IH t) as (vs' & r & t' & He & Hrun). rewrite He.
      eexists _, _, _. split; [reflexivity|]. by constructor.
Qed.

Lemma delete_run (x : jewel) t :
  Jewel.delete x t
  = match complex (backend x) with
    | Some cx => ((x, Delete cx (List.length t)),
                  t ++ [BackendDelete (Name (backend x))])
    | None => ((x, None), t)
    end.
Proof. unfold Jewel.delete. destruct (complex (backend x)); reflexivity. Qed.

(** [eachVault] with the delete block makes the pass of the releases, and
    leaves the jewels as they were. *)
Lemma eachVault_deletes vs t :
  ∃ r t',
    Chart.eachVault vs (λ x, Jewel.delete x) t = ((vs, r), t')
    ∧ releases_run vs t r t'.
Proof.
  revert t. induction vs as [|[key val] rest IH]; intros t.
  - eexists _, _. split; [reflexivity | constructor].
  - destruct (vault_or_not val) as [[x ->]|Hv].
    + rewrite eachVault_vault, delete_run.
      destruct (complex (backend x)) as [cx|] eqn:Hcx.
      * destruct (Delete cx (List.length t)) as [e|] eqn:Hd.
        { eexists _, _. split; [reflexivity|]. by eapply releases_stop. }
        destruct (IH (t ++ [BackendDelete (Name (backend x))]))
          as (r & t' & He & Hrun).
        rewrite He. eexists _, _. split; [reflexivity|].
        by eapply releases_next.
      * destruct (IH t) as (r & t' & He & Hrun). rewrite He.
        eexists _, _. split; [reflexivity|]. by apply releases_simple.
    + rewrite (eachVault_other _ _ _ _ _ Hv).
      destruct (IH t) as (r & t' & He & Hrun). rewrite He.
      eexists _, _. split; [reflexivity|]. by constructor.
Qed.

End ChartLoops.

(** ** Attribute access on a chart *)

Section ChartAttributes.

Variable wrapDict unwrapDict : Value -> Value.
Implicit Types (c : chartImpl) (vs : list (string * Value)).

Lemma lookup_store_eq key val vs :
  Chart.lookup_value key (Chart.store_value key val vs) = Some val.
Proof.
  induction vs as [|[k e] rest IH]; cbn.
  - rewrite String.eqb_refl. reflexivity.
  - destruct (String.eqb k key) eqn:Hk; cbn; rewrite Hk; [reflexivity|].
    exact IH.
Qed.

Lemma lookup_store_ne key other val vs :
  other ≠ key ->
  Chart.lookup_value other (Chart.store_value key val vs)
  = Chart.lookup_value other vs.
Proof.
  intros Hne. induction vs as [|[k e] rest IH]; cbn.
  - destruct (String.eqb_spec key other); [congruence | reflexivity].
  - destruct (String.eqb_spec k key) as [->|Hk]; cbn.
    + destruct (String.eqb_spec key other); [congruence | reflexivity].
    + destruct (String.eqb k other); [reflexivity | exact IH].
Qed.

(** A write keeps the keys of the mapping distinct. *)
Lemma store_value_keys key val vs :
  NoDup (map fst vs) -> NoDup (map fst (Chart.store_value key val vs)).
Proof.
  assert (Hin : ∀ k l, k ∈ map fst (Chart.store_value key val l) ->
                       k = key ∨ k ∈ map fst l).
  { intros k l. induction l as [|[k' e] rest IH]; cbn.
    - rewrite list_elem_of_singleton. auto.
    - destruct (String.eqb_spec k' key) as [->|Hk]; cbn;
        rewrite !elem_of_cons; [tauto|].
      intros [->|Hr]; [tauto|]. destruct (IH Hr); tauto. }
  induction vs as [|[k e] rest IH]; cbn; intros Hnd.
  - apply NoDup_singleton.
  - apply NoDup_cons in Hnd as [Hk Hrest].
    destruct (String.eqb_spec k key) as [->|Hne]; cbn.
    + apply NoDup_cons. done.
    + apply NoDup_cons. split; [|auto].
      intros Hk'. destruct (Hin _ _ Hk'); [congruence | done].
Qed.

(** C5.  [Attr] of a chart resolves a name in this order.  [namespace],
    [name] and [__class__] are answered from the chart itself (its
    namespace, [GetName()], its class), whatever the values mapping holds
    under these names.  Any other name is looked up in the values mapping,
    and what is found is returned wrapped; failing that, in the methods
    mapping; failing that too (no such key, or a key bound to [nil]),
    [Attr] returns no value and the no-such-attribute error
    ["chart has no .<name> attribute"]. *)
Theorem chart_Attr_resolution c :
  Chart.Attr wrapDict c "namespace" = (Some (VString (namespace c)), None)
  ∧ Chart.Attr wrapDict c "name" = (Some (VString (Chart.GetName c)), None)
  ∧ Chart.Attr wrapDict c "__class__" = (Some (VClass (clazz c)), None)
  ∧ (∀ attr,
       attr ≠ "namespace"%string -> attr ≠ "name"%string ->
       attr ≠ "__class__"%string ->
       (∀ value, Chart.lookup_value attr (values c) = Some value ->
          Chart.Attr wrapDict c attr = (Some (wrapDict value), None))
       ∧ (∀ f, Chart.lookup_value attr (values c) = None ->
            methods c !! attr = Some (Some f) ->
            Chart.Attr wrapDict c attr = (Some (VCallable f), None))
       ∧ (Chart.lookup_value attr (values c) = None ->
          Chart.method c attr = None ->
          Chart.Attr wrapDict c attr
          = (None, Some (NoSuchAttrError
                           ("chart has no ." ++ attr ++ " attribute")%string)))).
Proof.
  split; [reflexivity|]. split; [reflexivity|]. split; [reflexivity|].
  intros attr H1 H2 H3. unfold Chart.Attr, Chart.method.
  destruct (String.eqb_spec attr "namespace"); [done|].
  destruct (String.eqb_spec attr "name"); [done|].
  destruct (String.eqb_spec attr "__class__"); [done|].
  repeat split.
  - intros value ->. reflexivity.
  - intros f -> ->. reflexivity.
  - intros ->. destruct (methods c !! attr) as [[f|]|]; done.
Qed.

(** The error of a failed [Attr] depends on the attribute only: the chart
    is named in it by the word [chart], not by [GetName()]. *)
Lemma chart_Attr_error_ignores_identity c1 c2 attr e :
  Chart.Attr wrapDict c1 attr = (None, Some e) ->
  (Chart.Attr wrapDict c2 attr).2 ≠ None ->
  Chart.Attr wrapDict c2 attr = (None, Some e).
Proof.
  unfold Chart.Attr. repeat case_match; cbn; intros; simplify_eq; done.
Qed.

(** C9.  [SetField] never fails: it returns [nil] and a chart whose values
    mapping binds the name to the unwrapped value and is unchanged at every
    other name; nothing else of the chart changes.  This holds for the
    reserved names too, and [Attr] still answers them from the chart
    itself after such a write: the reservation is enforced on read
    only. *)
Theorem SetField_always_stores c attr val :
  ∃ c',
    Chart.SetField unwrapDict c attr val = (c', None)
    ∧ Chart.lookup_value attr (values c') = Some (unwrapDict val)
    ∧ (∀ other, other ≠ attr ->
         Chart.lookup_value other (values c')
         = Chart.lookup_value other (values c))
    ∧ Chart.Attr wrapDict c' "name" = (Some (VString (Chart.GetName c)), None)
    ∧ Chart.Attr wrapDict c' "namespace" = (Some (VString (namespace c)), None)
    ∧ Chart.Attr wrapDict c' "__class__" = (Some (VClass (clazz c)), None).
Proof.
  eexists. split; [reflexivity|]. cbn.
  split; [apply lookup_store_eq|].
  split; [intros other Hne; by apply lookup_store_ne|].
  done.
Qed.

End ChartAttributes.

Lemma chart_Attr_resolution_witness :
  Chart.Attr (λ v, v) Examples.shop "replicas" = (Some (VLib "int"), None).
Proof.
  apply (proj1 (proj2 (proj2 (proj2
           (chart_Attr_resolution (λ v, v) Examples.shop))) "replicas"
           ltac:(discriminate) ltac:(discriminate) ltac:(discriminate))).
  reflexivity.
Defined.

Lemma SetField_always_stores_witness :
  ∃ c',
    Chart.SetField (λ v, v) Examples.shop "name" (VString "intruder") = (c', None)
    ∧ Chart.lookup_value "name" (values c') = Some (VString "intruder")
    ∧ Chart.Attr (λ v, v) c' "name" = (Some (VString "shop"), None).
Proof.
  destruct (SetField_always_stores (λ v, v) (λ v, v) Examples.shop "name"
              (VString "intruder")) as (c' & H1 & H2 & _ & H4 & _).
  exists c'. split; [exact H1|]. split; [exact H2|]. exact H4.
Defined.

(** ** The order of the calls of apply and delete *)

Section ChartLifecycle.

Context {O Stream : Type}.
Variable starlark_Call :
  list (Event O) -> Callable -> K8sValue_ O -> chartImpl ->
  chartImpl * Completion * list (Event O).
Variable template :
  list (Event O) -> chartImpl -> string -> bool ->
  chartImpl * Stream * list (Event O).
Variable decode : Stream -> O.
Implicit Types (c : chartImpl) (k : K8sValue_ O) (t : list (Event O)).

Abbreviation apply := (Chart.apply starlark_Call template decode).
Abbreviation applyLocal := (Chart.applyLocal template decode).
Abbreviation delete := (Chart.delete starlark_Call template decode).
Abbreviation deleteLocal := (Chart.deleteLocal template decode).

Lemma set_values_same c : Chart.set_values c (values c) = c.
Proof. destruct c; reflexivity. Qed.

Lemma render_run c glob flag t :
  Chart.render template c glob flag t
  = (let t1 := t ++ [RenderTemplate (Chart.GetName c) glob flag] in
     let '(c', s, made) := template t1 c glob flag in
     ((c', s), t1 ++ made)).
Proof. reflexivity. Qed.

(** [apply], by its two steps. *)
Lemma apply_run c k t :
  apply c k t
  = (let '((vs, r), t1) :=
       Chart.eachSubChart (values c) (Chart.call_hook starlark_Call "apply" k) t in
     match r with
     | Returns None =>
         let '((c', err), t') :=
           applyLocal (Chart.set_values c vs) k {| Namespaced := false |} "" t1 in
         ((c', Returns err), t')
     | _ => ((Chart.set_values c vs, r), t1)
     end).
Proof.
  unfold Chart.apply, mbind, Eff_bind.
  destruct (Chart.eachSubChart _ _ _) as [[vs [[e|]|msg]] t1]; try reflexivity.
  destruct (Chart.applyLocal _ _ _ _ _ _ _) as [[c' err] t']. reflexivity.
Qed.

Lemma delete_run_chart c k t :
  delete c k t
  = (let '((vs, r), t1) :=
       Chart.eachSubChart (values c) (Chart.call_hook starlark_Call "delete" k) t in
     match r with
     | Returns None =>
         let '((c', err), t') :=
           deleteLocal (Chart.set_values c vs) k {| Namespaced := false |} "" t1 in
         ((c', Returns err), t')
     | _ => ((Chart.set_values c vs, r), t1)
     end).
Proof.
  unfold Chart.delete, mbind, Eff_bind.
  destruct (Chart.eachSubChart _ _ _) as [[vs [[e|]|msg]] t1]; try reflexivity.
  destruct (Chart.deleteLocal _ _ _ _ _ _ _) as [[c' err] t']. reflexivity.
Qed.

(** The hooks run first; local work starts when every hook has returned
    [nil]. *)
Lemma apply_hooks_first c k t :
  ∃ vs1 r1 t1,
    hooks_run starlark_Call "apply" k (values c) t vs1 r1 t1
    ∧ (∃ made, t1 = t ++ made)
    ∧ match r1 with
      | Returns None =>
          apply c k t
          = (let '((c', err), t') :=
               applyLocal (Chart.set_values c vs1) k
                 {| Namespaced := false |} "" t1 in
             ((c', Returns err), t'))
      | _ => apply c k t = ((Chart.set_values c vs1, r1), t1)
      end.
Proof.
  destruct (eachSubChart_hooks starlark_Call "apply" k (values c) t)
    as (vs1 & r1 & t1 & He & Hrun).
  exists vs1, r1, t1. split; [exact Hrun|].
  split; [by eapply hooks_run_extends|].
  rewrite apply_run, He. destruct r1 as [[e|]|msg]; reflexivity.
Qed.

Lemma applyLocal_reads_then_submits c k opts glob t1 :
  ∃ vs2 r2 t2,
    reads_run (k8s_vault k) (values c) t1 vs2 r2 t2
    ∧ match r2 with
      | Some e =>
          applyLocal c k opts glob t1 = ((Chart.set_values c vs2, Some e), t2)
      | None =>
          let c2 := Chart.set_values c vs2 in
          let t3 := t2 ++ [RenderTemplate (Chart.GetName c) glob true] in
          let '(c3, s, made) := template t3 c2 glob true in
          let submitted := {| Namespaced := false |} in
          applyLocal c k opts glob t1
          = ((c3, k8s_Apply k (List.length (t3 ++ made)) (decode s) submitted),
             t3 ++ made ++ [K8sApply k (decode s) submitted])
      end.
Proof.
  destruct (eachVault_reads (k8s_vault k) (values c) t1)
    as (vs2 & r2 & t2 & He & Hrun).
  exists vs2, r2, t2. split; [exact Hrun|].
  unfold Chart.applyLocal, mbind, Eff_bind. rewrite He.
  destruct r2 as [e|]; [reflexivity|].
  cbn zeta. rewrite render_run. cbn zeta.
  change (Chart.GetName (Chart.set_values c vs2)) with (Chart.GetName c).
  destruct (template _ _ _ _) as [[c3 s] made].
  unfold call, mret, Eff_ret, set_Namespaced.
  f_equal. symmetry. apply app_assoc.
Qed.

(** C7.  The internal apply hook calls the [apply] hook of every sub-chart:
    the function bound to [apply] in the sub-chart's own methods, with the
    client it was given, in the order of the entries, before any local
    work.  A hook that does not return [nil] (an error, a panic; a sub-chart
    without the method makes the call panic) ends the apply with that
    result, and nothing local is done.  The local apply first has every
    jewel of the chart read its secret through the client; a read that
    fails (other than not-found) ends it with that error, before anything is
    rendered.  Then the templates are rendered, over the chart with the
    jewels as the reads left them, and only after the rendering and the
    calls it made is the decoded stream submitted to the client's [Apply],
    with [Namespaced] false whatever the options said; the answer of the
    client is the result. *)
Theorem apply_subcharts_then_reads_then_submit c k t :
  (∃ vs1 r1 t1,
     hooks_run starlark_Call "apply" k (values c) t vs1 r1 t1
     ∧ (∃ made, t1 = t ++ made)
     ∧ match r1 with
       | Returns None =>
           apply c k t
           = (let '((c', err), t') :=
                applyLocal (Chart.set_values c vs1) k
                  {| Namespaced := false |} "" t1 in
              ((c', Returns err), t'))
       | _ => apply c k t = ((Chart.set_values c vs1, r1), t1)
       end)
  ∧ (∀ opts glob t1,
     ∃ vs2 r2 t2,
       reads_run (k8s_vault k) (values c) t1 vs2 r2 t2
       ∧ match r2 with
         | Some e =>
             applyLocal c k opts glob t1
             = ((Chart.set_values c vs2, Some e), t2)
         | None =>
             let c2 := Chart.set_values c vs2 in
             let t3 := t2 ++ [RenderTemplate (Chart.GetName c) glob true] in
             let '(c3, s, made) := template t3 c2 glob true in
             let submitted := {| Namespaced := false |} in
             applyLocal c k opts glob t1
             = ((c3, k8s_Apply k (List.length (t3 ++ made)) (decode s)
                       submitted),
                t3 ++ made ++ [K8sApply k (decode s) submitted])
         end).
Proof.
  split; [apply apply_hooks_first|].
  intros opts glob t1. apply applyLocal_reads_then_submits.
Qed.

Lemma delete_hooks_first c k t :
  ∃ vs1 r1 t1,
    hooks_run starlark_Call "delete" k (values c) t vs1 r1 t1
    ∧ (∃ made, t1 = t ++ made)
    ∧ match r1 with
      | Returns None =>
          delete c k t
          = (let '((c', err), t') :=
               deleteLocal (Chart.set_values c vs1) k
                 {| Namespaced := false |} "" t1 in
             ((c', Returns err), t'))
      | _ => delete c k t = ((Chart.set_values c vs1, r1), t1)
      end.
Proof.
  destruct (eachSubChart_hooks starlark_Call "delete" k (values c) t)
    as (vs1 & r1 & t1 & He & Hrun).
  exists vs1, r1, t1. split; [exact Hrun|].
  split; [by eapply hooks_run_extends|].
  rewrite delete_run_chart, He. destruct r1 as [[e|]|msg]; reflexivity.
Qed.

Lemma deleteLocal_removes_then_releases c k opts glob t1 :
  let t2 := t1 ++ [RenderTemplate (Chart.GetName c) glob false] in
  let '(c2, s, made) := template t2 c glob false in
  let submitted := {| Namespaced := false |} in
  let t3 := t2 ++ made ++ [K8sDelete k (decode s) submitted] in
  match k8s_Delete k (List.length (t2 ++ made)) (decode s) submitted with
  | Some e => deleteLocal c k opts glob t1 = ((c2, Some e), t3)
  | None =>
      ∃ r t4,
        releases_run (values c2) t3 r t4
        ∧ deleteLocal c k opts glob t1 = ((c2, r), t4)
  end.
Proof.
  cbn zeta. unfold Chart.deleteLocal, mbind, Eff_bind.
  rewrite render_run. cbn zeta.
  destruct (template _ _ _ _) as [[c2 s] made].
  unfold call, mret, Eff_ret, set_Namespaced.
  set (t2 := t1 ++ [RenderTemplate (Chart.GetName c) glob false]).
  rewrite (app_assoc t2 made).
  destruct (k8s_Delete k _ _ _) as [e|]; [reflexivity|].
  destruct (eachVault_deletes (values c2)
              ((t2 ++ made)
                 ++ [K8sDelete k (decode s) {| Namespaced := false |}]))
    as (r & t4 & He & Hrun).
  exists r, t4. split; [exact Hrun|].
  rewrite He. by rewrite set_values_same.
Qed.

(** C1, as the code has it.  The internal delete hook first calls the
    [delete] hook of every sub-chart: the function bound to [delete] in the
    sub-chart's own methods, with the client it was given, in the order of
    the entries.  A hook that does not return [nil] (an error, a panic; a
    sub-chart without the method makes the call panic) ends the delete with
    that result, and nothing local is done.  Only then are the chart's own
    manifests rendered and their removal submitted to the client, with
    [Namespaced] false.  The chart's jewels are released only when that
    removal has succeeded: when it fails, its error is returned and no
    jewel is released; when it succeeds, every jewel is released in turn,
    up to the first release that fails. *)
Theorem delete_subcharts_then_removal_then_release c k t :
  (∃ vs1 r1 t1,
     hooks_run starlark_Call "delete" k (values c) t vs1 r1 t1
     ∧ (∃ made, t1 = t ++ made)
     ∧ match r1 with
       | Returns None =>
           delete c k t
           = (let '((c', err), t') :=
                deleteLocal (Chart.set_values c vs1) k
                  {| Namespaced := false |} "" t1 in
              ((c', Returns err), t'))
       | _ => delete c k t = ((Chart.set_values c vs1, r1), t1)
       end)
  ∧ (∀ opts glob t1,
       let t2 := t1 ++ [RenderTemplate (Chart.GetName c) glob false] in
       let '(c2, s, made) := template t2 c glob false in
       let submitted := {| Namespaced := false |} in
       let t3 := t2 ++ made ++ [K8sDelete k (decode s) submitted] in
       match k8s_Delete k (List.length (t2 ++ made)) (decode s) submitted with
       | Some e => deleteLocal c k opts glob t1 = ((c2, Some e), t3)
       | None =>
           ∃ r t4,
             releases_run (values c2) t3 r t4
             ∧ deleteLocal c k opts glob t1 = ((c2, r), t4)
       end).
Proof.
  split; [apply delete_hooks_first|].
  intros opts glob t1. apply deleteLocal_removes_then_releases.
Qed.

End ChartLifecycle.

(** The theorems of the two hooks at a chart with one sub-chart and one
    jewel. *)

(** The delete of a chart with one sub-chart and one jewel, with hooks that
    do nothing: the hook of the sub-chart, the rendering, the removal, the
    release. *)
Example delete_shop_trace :
  (Chart.delete Examples.hooks_succeed Examples.render Examples.documents
     Examples.shop Examples.cluster []).2
  = [ StarlarkCall (Some (Builtin "delete at database/Chart.star"))
        Examples.cluster;
      RenderTemplate "shop" "" false;
      K8sDelete Examples.cluster ["manifests of shop"%string]
        {| Namespaced := false |};
      BackendDelete "certificate" ].
Proof. reflexivity. Qed.

(** C1, as the specification words it, fails: in the delete of a chart with
    a sub-chart, the removal of the chart's own manifests does not come
    before the call of the sub-chart's hook. *)
Lemma delete_removal_not_before_subcharts :
  ¬ all_before is_K8sDelete is_StarlarkCall
      (Chart.delete Examples.hooks_succeed Examples.render Examples.documents
         Examples.shop Examples.cluster []).2.
Proof.
  rewrite delete_shop_trace. intros H.
  specialize (H 2%nat 0%nat _ _ eq_refl eq_refl eq_refl eq_refl). lia.
Qed.

(** The apply of the same chart: the hook of the sub-chart, the read of the
    jewel's secret, the rendering, the submission. *)
Example apply_shop_trace :
  (Chart.apply Examples.hooks_succeed Examples.render Examples.documents
     Examples.shop Examples.cluster []).2
  = [ StarlarkCall (Some (Builtin "apply at database/Chart.star"))
        Examples.cluster;
      VaultRead "shop-tls";
      RenderTemplate "shop" "" true;
      K8sApply Examples.cluster ["manifests of shop"%string]
        {| Namespaced := false |} ].
Proof. reflexivity. Qed.

(** A read that fails for another reason than not-found ends the apply
    before anything is rendered. *)
Example apply_shop_flaky_vault :
  let k := Examples.client Examples.flaky_vault None in
  Chart.apply Examples.hooks_succeed Examples.render Examples.documents
    Examples.shop k []
  = ((Examples.shop, Returns (Some (OtherError "connection refused"))),
     [ StarlarkCall (Some (Builtin "apply at database/Chart.star")) k;
       VaultRead "shop-tls" ]).
Proof. reflexivity. Qed.

(** A hook that fails ends the apply at once: no read, no rendering, no
    submission. *)
Example apply_shop_hook_fails :
  Chart.apply Examples.hooks_refuse Examples.render Examples.documents
    Examples.shop Examples.cluster []
  = ((Examples.shop, Returns (Some (OtherError "hook failed"))),
     [ StarlarkCall (Some (Builtin "apply at database/Chart.star"))
         Examples.cluster ]).
Proof. reflexivity. Qed.

(** A sub-chart without an [apply] method: the call panics. *)
Example apply_orphan_panics :
  Chart.apply Examples.hooks_succeed Examples.render Examples.documents
    Examples.orphan Examples.cluster []
  = ((Examples.orphan, Panics nil_dereference),
     [ StarlarkCall None Examples.cluster ]).
Proof. reflexivity. Qed.

(** With the hooks as the builtins and templates that read the jewels: the
    apply of the sub-chart runs whole inside its hook (its own sub-chart,
    read, rendering with the backend call of its jewel, submission), before
    the read of the parent's jewel; and rendering the parent calls the
    backend of the parent's jewel before the submission. *)
Example apply_mall_trace :
  (Chart.apply (Examples.builtins 3) Examples.render_reading
     Examples.documents Examples.mall Examples.cluster []).2
  = [ StarlarkCall (Some (Builtin "apply at shop/Chart.star")) Examples.cluster;
      StarlarkCall (Some (Builtin "apply at database/Chart.star"))
        Examples.cluster;
      RenderTemplate "database" "" true;
      K8sApply Examples.cluster ["manifests of database"%string]
        {| Namespaced := false |};
      VaultRead "shop-tls";
      RenderTemplate "shop" "" true;
      BackendTemplate "certificate";
      K8sApply Examples.cluster ["manifests of shop"%string]
        {| Namespaced := false |};
      VaultRead "mall-pwd";
      RenderTemplate "mall" "" true;
      BackendApply "password" ∅;
      K8sApply Examples.cluster ["manifests of mall"%string]
        {| Namespaced := false |} ].
Proof. vm_compute. reflexivity. Qed.

(** ** Hashing a chart *)

Section ChartHash.

Variable lib_Hash : Value -> Z * option error.
Implicit Types (c : chartImpl) (vs : list (string * Value)).

Abbreviation Value_Hash := (Chart.Value_Hash lib_Hash).
Abbreviation Hash := (Chart.Hash lib_Hash).
Abbreviation hashable := (Chart.hashable lib_Hash).

(** The loop runs through hashable entries. *)
Lemma hash_entries_hashable pre :
  Forall (λ kv, hashable kv.2) pre ->
  ∀ x m, ∃ x' m', ∀ rest,
    Chart.hash_entries lib_Hash Value_Hash (pre ++ rest) x m
    = Chart.hash_entries lib_Hash Value_Hash rest x' m'.
Proof.
  induction 1 as [|[k e] pre [h Hh] _ IH]; intros x m.
  - exists x, m. reflexivity.
  - cbn in Hh.
    destruct (IH (Go.xor32 (Go.xor32 x (Go.mul32 3 (lib_Hash (VString k)).1))
                    (Go.mul32 h m)) (Go.add32 m 7349)) as (x' & m' & Hrest).
    exists x', m'. intros rest. cbn. rewrite Hh. apply Hrest.
Qed.

(** The part of C8 that holds: when the first entry that is not hashable
    has a [Hash] that returns an error, [Hash] of the chart returns that
    error, with the hash 0. *)
Lemma Hash_returns_first_error c pre key v y err rest :
  values c = pre ++ (key, v) :: rest ->
  Forall (λ kv, hashable kv.2) pre ->
  Value_Hash v = Returned y (Some err) ->
  Hash c = Returned 0 (Some err).
Proof.
  intros Hvs Hpre Hv. unfold Chart.Hash. rewrite Hvs.
  destruct (hash_entries_hashable pre Hpre 8731 9839) as (x' & m' & ->).
  cbn. rewrite Hv. reflexivity.
Qed.

(** C8 fails on a jewel.  When the first entry of the values mapping that
    is not hashable is a jewel, [Hash] of the chart does not return an
    error: it panics, as the jewel's own [Hash] does. *)
Theorem Hash_panics_on_jewel c pre key (j : jewel) rest :
  values c = pre ++ (key, VVault j) :: rest ->
  Forall (λ kv, hashable kv.2) pre ->
  Hash c = Panicked "implement me".
Proof.
  intros Hvs Hpre. unfold Chart.Hash. rewrite Hvs.
  destruct (hash_entries_hashable pre Hpre 8731 9839) as (x' & m' & ->).
  reflexivity.
Qed.

(** C2 fails.  With the hashes 1 and 0 that the interpreter gives to the
    booleans, the mapping [{"a": True, "b": False}] hashes to one number
    when the loop meets [a] first and to another when it meets [b] first:
    the multiplier of a value's hash depends on the turn of the loop in
    which the value is met. *)
Theorem Hash_depends_on_iteration_order c :
  lib_Hash (VBool true) = (1, None) ->
  lib_Hash (VBool false) = (0, None) ->
  let vs1 := [("a"%string, VBool true); ("b"%string, VBool false)] in
  let vs2 := [("b"%string, VBool false); ("a"%string, VBool true)] in
  Permutation vs1 vs2
  ∧ ∃ h1 h2,
      Hash (Chart.set_values c vs1) = Returned h1 None
      ∧ Hash (Chart.set_values c vs2) = Returned h2 None
      ∧ h1 ≠ h2.
Proof.
  intros Ht Hf vs1 vs2. split; [apply perm_swap|].
  unfold Chart.Hash. cbn. rewrite Ht, Hf.
  do 2 eexists. split; [reflexivity|]. split; [reflexivity|].
  set (pa := Go.mul32 3 (lib_Hash (VString "a")).1).
  set (pb := Go.mul32 3 (lib_Hash (VString "b")).1).
  intros Heq. apply (f_equal (λ z, Z.testbit z 0)) in Heq.
  unfold Go.xor32 in Heq. rewrite !Z.lxor_spec in Heq.
  change (Go.mul32 1 9839) with 9839 in Heq.
  change (Go.mul32 0 (Go.add32 9839 7349)) with 0 in Heq.
  change (Go.mul32 0 9839) with 0 in Heq.
  change (Go.mul32 1 (Go.add32 9839 7349)) with 17188 in Heq.
  destruct (Z.testbit pa 0), (Z.testbit pb 0); discriminate Heq.
Qed.

End ChartHash.

Lemma Hash_panics_on_jewel_witness :
  Chart.Hash Examples.hash_of Examples.shop_reordered = Panicked "implement me".
Proof.
  apply (Hash_panics_on_jewel Examples.hash_of Examples.shop_reordered
           [("replicas"%string, VLib "int")] "tls"
           (NewJewel Examples.cert_backend "shop-tls")
           [("db"%string, VChart Examples.database)]).
  - reflexivity.
  - constructor; [exists 7; reflexivity | constructor].
Defined.

Lemma Hash_depends_on_iteration_order_witness :
  Permutation (values (Examples.flags "a" "b")) (values (Examples.flags "b" "a"))
  ∧ ∃ h1 h2,
      Chart.Hash Examples.hash_of (Examples.flags "a" "b") = Returned h1 None
      ∧ Chart.Hash Examples.hash_of (Examples.flags "b" "a") = Returned h2 None
      ∧ h1 ≠ h2.
Proof.
  exact (Hash_depends_on_iteration_order Examples.hash_of
           (Examples.flags "a" "b") eq_refl eq_refl).
Defined.

(** The two hashes of the same mapping. *)
Example Hash_flags_a_first :
  Chart.Hash Examples.hash_of (Examples.flags "a" "b") = Returned 1140 None.
Proof. reflexivity. Qed.

Example Hash_flags_b_first :
  Chart.Hash Examples.hash_of (Examples.flags "b" "a") = Returned 24895 None.
Proof. reflexivity. Qed.

(** An unhashable library value met before any jewel: [Hash] returns its
    error. *)
Example Hash_list_value :
  Chart.Hash Examples.hash_of
    (Examples.chart_of "listed" [("ports"%string, VLib "list")])
  = Returned 0 (Some (OtherError "unhashable type: list")).
Proof. reflexivity. Qed.

(** * Further properties of the jewel *)

Section JewelExtras.

Context {O : Type}.
Implicit Types (c : jewel) (t : list (Event O)).

(** No operation of a jewel changes its name or its backend. *)
Theorem jewel_identity_kept c (v : Vault) attr t :
  (backend (Jewel.read c v t).1.1 = backend c
   ∧ name (Jewel.read c v t).1.1 = name c)
  ∧ (backend (Jewel.ensure c t).1.1 = backend c
     ∧ name (Jewel.ensure c t).1.1 = name c)
  ∧ (backend (Jewel.Attr c attr t).1.1 = backend c
     ∧ name (Jewel.Attr c attr t).1.1 = name c)
  ∧ (backend (Jewel.templateValues c t).1.1 = backend c
     ∧ name (Jewel.templateValues c t).1.1 = name c)
  ∧ (Jewel.delete c t).1.1 = c.
Proof.
  assert (He : backend (Jewel.ensure c t).1.1 = backend c
               ∧ name (Jewel.ensure c t).1.1 = name c).
  { unfold Jewel.ensure; run_eff. repeat case_match; run_eff; done. }
  split.
  { unfold Jewel.read; run_eff. repeat case_match; run_eff; done. }
  split; [exact He|]. split; [|split].
  - unfold Jewel.Attr. repeat case_match; run_eff; try done.
    destruct (Jewel.ensure c t) as [[c' [e|]] t']; exact He.
  - unfold Jewel.templateValues; run_eff.
    destruct (Jewel.ensure c t) as [[c' e] t']; exact He.
  - unfold Jewel.delete. case_match; reflexivity.
Qed.

(** The moves of the state: [read] keeps the state or sets [Loaded];
    [ensure], [Attr] and [templateValues] keep it or set [Ready]; no
    operation sets [Init]. *)
Theorem jewel_state_moves c (v : Vault) attr t :
  (state (Jewel.read c v t).1.1 = state c
   ∨ state (Jewel.read c v t).1.1 = stateLoaded)
  ∧ (state (Jewel.ensure c t).1.1 = state c
     ∨ state (Jewel.ensure c t).1.1 = stateReady)
  ∧ (state (Jewel.Attr c attr t).1.1 = state c
     ∨ state (Jewel.Attr c attr t).1.1 = stateReady)
  ∧ (state (Jewel.templateValues c t).1.1 = state c
     ∨ state (Jewel.templateValues c t).1.1 = stateReady).
Proof.
  assert (He : state (Jewel.ensure c t).1.1 = state c
               ∨ state (Jewel.ensure c t).1.1 = stateReady).
  { unfold Jewel.ensure; run_eff. repeat case_match; run_eff; auto. }
  split.
  { unfold Jewel.read; run_eff. repeat case_match; run_eff; auto. }
  split; [exact He|]. split.
  - unfold Jewel.Attr. repeat case_match; run_eff; auto.
    destruct (Jewel.ensure c t) as [[c' [e|]] t']; exact He.
  - unfold Jewel.templateValues; run_eff.
    destruct (Jewel.ensure c t) as [[c' e] t']; exact He.
Qed.

(** [ensure] calls the backend when the jewel is [Init] or [Loaded], and
    then once; in any other state it makes no call. *)
Theorem ensure_at_most_one_call c t :
  ∃ calls,
    (Jewel.ensure c t).2 = t ++ calls
    ∧ (calls = [] ∨ calls = [BackendApply (Name (backend c)) (data c)]
       ∨ calls = [BackendApply (Name (backend c)) ∅]
       ∨ calls = [BackendTemplate (Name (backend c))])
    ∧ (calls = [] ↔ state c ≠ stateInit ∧ state c ≠ stateLoaded).
Proof.
  unfold Jewel.ensure; run_eff.
  destruct (Z.eqb_spec (state c) stateLoaded) as [Hl|Hl].
  { eexists. split; [repeat case_match; run_eff; reflexivity|].
    split; [auto|]. split; [discriminate | tauto]. }
  destruct (Z.eqb_spec (state c) stateInit) as [Hi|Hi].
  { destruct (complex (backend c)); run_eff;
      (eexists; split; [repeat case_match; run_eff; reflexivity|]);
      (split; [auto|]); (split; [discriminate | tauto]). }
  exists []. split; [repeat case_match; run_eff; by rewrite app_nil_r|].
  split; [auto|]. tauto.
Qed.

(** After a [read] that found the secret, whatever the state of the jewel
    was, the next [ensure] hands the payload read to the backend's [Apply],
    also when the backend has a [Template]. *)
Theorem read_then_ensure c (v : Vault) t d :
  Read v (List.length t) (name c) = (d, None) ->
  ('(c1, _) ← Jewel.read c v; Jewel.ensure c1) t
  = (match Apply (backend c) (S (List.length t)) d with
     | (d', None) => (mkJewel (backend c) stateReady (name c) d', None)
     | (_, Some e) => (mkJewel (backend c) stateLoaded (name c) d, Some e)
     end,
     t ++ [VaultRead (name c); BackendApply (Name (backend c)) d]).
Proof.
  intros Hr. unfold Jewel.read, Jewel.ensure; run_eff. rewrite Hr. run_eff.
  rewrite length_app, Nat.add_1_r, <- app_assoc. cbn.
  destruct (Apply (backend c) (S (List.length t)) d) as [d' [e|]]; reflexivity.
Qed.

(** A first install: the secret is not on the cluster, and two declared
    fields are read one after the other.  The backend is called once, with
    an empty payload, and both fields are taken from what it returned. *)
Theorem first_install_one_backend_call (b : JewelBackend) (v : Vault) n
    f kf g kg t d0 e d :
  complex b = None ->
  f ≠ "name"%string -> g ≠ "name"%string ->
  Keys b !! f = Some kf -> Keys b !! g = Some kg ->
  Read v (List.length t) n = (d0, Some e) -> IsNotExist v e = true ->
  Apply b (S (List.length t)) ∅ = (d, None) ->
  ('(c1, _) ← Jewel.read (NewJewel b n) v;
   '(c2, r1) ← Jewel.Attr c1 f;
   '(c3, r2) ← Jewel.Attr c2 g;
   mret (c3, r1, r2)) t
  = ((mkJewel b stateReady n d,
      (VString (dataValue (d !! kf)), None),
      (VString (dataValue (d !! kg)), None)),
     t ++ [VaultRead n; BackendApply (Name b) ∅]).
Proof.
  intros Hc Hf Hg Hkf Hkg Hr Hne Ha.
  unfold Jewel.read, Jewel.Attr; run_eff. rewrite Hr. run_eff. rewrite Hne.
  run_eff.
  destruct (String.eqb_spec f "name"); [done|].
  destruct (String.eqb_spec g "name"); [done|].
  rewrite Hkf. unfold Jewel.ensure at 1; run_eff. rewrite Hc. run_eff.
  rewrite length_app, Nat.add_1_r. cbn. rewrite Ha. run_eff.
  rewrite Hkg. rewrite <- app_assoc. reflexivity.
Qed.

(** [templateValues] and [Attr] agree: a declared field that [Attr] reads
    with success has the same text in the mapping of [templateValues], and
    both leave the same jewel and the same trace. *)
Theorem templateValues_agrees_with_Attr c t field key c1 v t1 :
  field ≠ "name"%string -> Keys (backend c) !! field = Some key ->
  Jewel.Attr c field t = ((c1, (v, None)), t1) ->
  ∃ tv, Jewel.templateValues c t = ((c1, tv), t1)
        ∧ VString <$> (tv !! field) = Some v.
Proof.
  intros Hn Hk. unfold Jewel.Attr, Jewel.templateValues.
  destruct (String.eqb_spec field "name"); [done|].
  rewrite Hk. run_eff.
  pose proof (ensure_backend c t) as Hb.
  destruct (Jewel.ensure c t) as [[c' [e|]] t'] eqn:He; run_eff;
    intros; simplify_eq.
  eexists. split; [reflexivity|].
  rewrite lookup_fmap, Hb, Hk. reflexivity.
Qed.

(** [delete] leaves the jewel as it is, state and data included.  It calls
    the backend's [Delete] once when the backend has one, and returns its
    answer; otherwise it makes no call and returns no error. *)
Lemma jewel_delete_run c t :
  ∃ r calls,
    Jewel.delete c t = ((c, r), t ++ calls)
    ∧ match complex (backend c) with
      | Some cx => calls = [BackendDelete (Name (backend c))]
                   ∧ r = Delete cx (List.length t)
      | None => calls = [] ∧ r = None
      end.
Proof.
  unfold Jewel.delete. destruct (complex (backend c)) as [cx|]; run_eff.
  - by eexists _, _.
  - exists None, []. by rewrite app_nil_r.
Qed.

(** [delete] does not reset a jewel.  It makes at most one call, the
    backend's [Delete], and a [Ready] jewel that has been deleted still
    answers the read of a declared field from the payload it holds, without
    a further call. *)
Theorem deleted_jewel_still_answers c t field key :
  state c = stateReady ->
  field ≠ "name"%string -> Keys (backend c) !! field = Some key ->
  ∃ calls,
    (calls = [] ∨ calls = [BackendDelete (Name (backend c))])
    ∧ ('(c1, _) ← Jewel.delete c; Jewel.Attr c1 field) t
      = ((c, (VString (dataValue (data c !! key)), None)), t ++ calls).
Proof.
  intros Hs Hn Hk.
  destruct (jewel_delete_run c t) as (r & calls & Hd & Hc).
  exists calls. split.
  - destruct (complex (backend c)); [right | left]; tauto.
  - run_eff. rewrite Hd. unfold Jewel.Attr.
    destruct (String.eqb_spec field "name"); [done|].
    rewrite Hk. run_eff. rewrite (ensure_ready c _ Hs). reflexivity.
Qed.

(** [AttrNames] lists [name] and the declared fields, and nothing else; a
    name that is not listed gets the no-such-attribute error without a call,
    and every listed name of a [Ready] jewel resolves to a text without a
    call.  The list has a name twice exactly when the backend declares a
    field [name] (which [Attr] never reads: [name] is the jewel's name). *)
Theorem jewel_AttrNames_resolve c t attr :
  (attr ∈ Jewel.AttrNames c
   ↔ attr = "name"%string ∨ is_Some (Keys (backend c) !! attr))
  ∧ (attr ∉ Jewel.AttrNames c ->
     Jewel.Attr c attr t
     = ((c, (VNone,
             Some (NoSuchAttrError
                     (Name (backend c) ++ " has no ." ++ attr
                        ++ " attribute")%string))), t))
  ∧ (attr ∈ Jewel.AttrNames c -> state c = stateReady ->
     ∃ s, Jewel.Attr c attr t = ((c, (VString s, None)), t))
  ∧ (NoDup (Jewel.AttrNames c) ↔ Keys (backend c) !! "name" = None).
Proof.
  assert (Hin : ∀ a, a ∈ (map_to_list (Keys (backend c))).*1
                     ↔ is_Some (Keys (backend c) !! a)).
  { intros a. rewrite list_elem_of_fmap. split.
    - intros [[k x] [-> Hkx]]. apply elem_of_map_to_list in Hkx. by eexists.
    - intros [x Hx]. exists (a, x). split; [done|].
      by apply elem_of_map_to_list. }
  assert (Hmem : attr ∈ Jewel.AttrNames c
                 ↔ attr = "name"%string ∨ is_Some (Keys (backend c) !! attr)).
  { unfold Jewel.AttrNames. rewrite elem_of_cons, Hin. done. }
  split; [exact Hmem|]. split; [|split].
  - intros Hno. unfold Jewel.Attr.
    destruct (String.eqb_spec attr "name") as [->|_]; [tauto|].
    destruct (Keys (backend c) !! attr) eqn:Hk; [|done].
    exfalso. apply Hno, Hmem. right. by eexists.
  - intros Hyes Hs. unfold Jewel.Attr.
    destruct (String.eqb_spec attr "name") as [->|Hn]; [by eexists|].
    apply Hmem in Hyes as [?|[key Hk]]; [done|].
    rewrite Hk. run_eff. rewrite (ensure_ready c t Hs). by eexists.
  - unfold Jewel.AttrNames. rewrite NoDup_cons, Hin.
    rewrite <- eq_None_not_Some.
    pose proof (NoDup_fst_map_to_list (Keys (backend c))). tauto.
Qed.

End JewelExtras.

(** [dataValue] loses nothing of a payload that is there, and gives the
    empty text exactly for a payload that is absent or empty. *)
Theorem dataValue_round_trip (d : option (list byte)) :
  (∀ b, d = Some b -> list_byte_of_string (dataValue d) = b)
  ∧ (dataValue d = ""%string ↔ d = None ∨ d = Some []).
Proof.
  split.
  - intros b ->. apply list_byte_of_string_of_list_byte.
  - destruct d as [b|]; cbn; [|split; auto].
    unfold Go.string_of_bytes. split.
    + intros H. right. f_equal.
      rewrite <- (list_byte_of_string_of_list_byte b), H. reflexivity.
    + intros [?|[= ->]]; done.
Qed.

(** * Further properties of the chart *)

Lemma append_cancel_l (n x y : string) : (n ++ x = n ++ y)%string -> x = y.
Proof. induction n as [|a n IH]; cbn; [done|]. intros [= H]. auto. Qed.

Lemma append_grows (n x : string) : x ≠ ""%string -> (n ++ x)%string ≠ n.
Proof.
  intros Hx. induction n as [|a n IH]; cbn; [done|]. intros [= H]. auto.
Qed.

(** [GetName] is the class name exactly when there is no suffix, and two
    charts of one class with different suffixes have different names. *)
Theorem GetName_tells_suffixes_apart (c1 c2 : chartImpl) :
  (Chart.GetName c1 = class_Name (clazz c1) ↔ suffix c1 = ""%string)
  ∧ (class_Name (clazz c1) = class_Name (clazz c2) ->
     suffix c1 ≠ suffix c2 -> Chart.GetName c1 ≠ Chart.GetName c2).
Proof.
  assert (Hdash : ∀ s, ("-" ++ s)%string ≠ ""%string) by done.
  unfold Chart.GetName. split.
  - destruct (String.eqb_spec (suffix c1) "") as [->|Hs]; [done|].
    split; [|done]. intros H. by apply append_grows in H.
  - intros Hn Hs. rewrite Hn.
    destruct (String.eqb_spec (suffix c1) "") as [H1|H1];
      destruct (String.eqb_spec (suffix c2) "") as [H2|H2].
    + congruence.
    + intros H. symmetry in H. by apply append_grows in H.
    + intros H. by apply append_grows in H.
    + intros H. apply append_cancel_l in H. by injection H.
Qed.

Section ChartExtras.

Variable wrapDict unwrapDict : Value -> Value.
Implicit Types (c : chartImpl) (vs : list (string * Value)).

Abbreviation Attr := (Chart.Attr wrapDict).
Abbreviation SetField := (Chart.SetField unwrapDict).
Abbreviation reserved := Chart.reserved.

Lemma Attr_by_lookup c c' :
  namespace c' = namespace c -> clazz c' = clazz c -> suffix c' = suffix c ->
  methods c' = methods c ->
  ∀ attr, Chart.lookup_value attr (values c')
          = Chart.lookup_value attr (values c) ->
          Attr c' attr = Attr c attr.
Proof.
  intros Hn Hc Hs Hm attr Hl. unfold Chart.Attr, Chart.GetName.
  rewrite Hn, Hc, Hs, Hm, Hl. reflexivity.
Qed.

(** What [SetField] stores under a name that is not reserved, [Attr] reads
    back (unwrapped, then wrapped), also when the chart has a method of that
    name; and [Attr] of every other name is as before the write. *)
Theorem SetField_then_Attr c attr val :
  (¬ reserved attr ->
   Attr (SetField c attr val).1 attr = (Some (wrapDict (unwrapDict val)), None))
  ∧ (∀ other, other ≠ attr ->
       Attr (SetField c attr val).1 other = Attr c other).
Proof.
  split.
  - intros Hr. unfold reserved in Hr. unfold Chart.Attr. cbn.
    destruct (String.eqb_spec attr "namespace"); [tauto|].
    destruct (String.eqb_spec attr "name"); [tauto|].
    destruct (String.eqb_spec attr "__class__"); [tauto|].
    rewrite lookup_store_eq. reflexivity.
  - intros other Hne. apply Attr_by_lookup; try reflexivity.
    cbn. by apply lookup_store_ne.
Qed.

Lemma store_store_same key v1 v2 vs :
  Chart.store_value key v2 (Chart.store_value key v1 vs)
  = Chart.store_value key v2 vs.
Proof.
  induction vs as [|[k e] rest IH]; cbn.
  - rewrite String.eqb_refl. reflexivity.
  - destruct (String.eqb k key) eqn:Hk; cbn; rewrite Hk; [reflexivity|].
    by rewrite IH.
Qed.

(** Writes compose as on a map: a second write of a name replaces the
    first, and writes of two different names can be swapped without any
    [Attr] telling the difference. *)
Theorem SetField_twice c a b va vb :
  SetField (SetField c a va).1 a vb = SetField c a vb
  ∧ (a ≠ b ->
     ∀ attr, Attr (SetField (SetField c a va).1 b vb).1 attr
             = Attr (SetField (SetField c b vb).1 a va).1 attr).
Proof.
  split.
  - unfold Chart.SetField, Chart.set_values. cbn.
    by rewrite store_store_same.
  - intros Hab attr. apply Attr_by_lookup; try reflexivity. cbn.
    destruct (decide (attr = a)) as [Ea|Ha];
      destruct (decide (attr = b)) as [Eb|Hb]; subst; try done.
    + rewrite lookup_store_ne, !lookup_store_eq by done. done.
    + rewrite lookup_store_eq, lookup_store_ne, lookup_store_eq by done. done.
    + by rewrite !lookup_store_ne.
Qed.

Lemma lookup_value_key attr vs :
  attr ∈ map fst vs ↔ is_Some (Chart.lookup_value attr vs).
Proof.
  induction vs as [|[k e] rest IH]; cbn.
  - rewrite elem_of_nil. split; [done | by intros [? ?]].
  - rewrite elem_of_cons.
    destruct (String.eqb_spec k attr) as [->|Hk].
    + split; [by eexists | auto].
    + rewrite <- IH. split; [intros [?|?]; [congruence | done] | auto].
Qed.

Lemma store_value_key key val vs :
  key ∈ map fst (Chart.store_value key val vs).
Proof.
  apply lookup_value_key. rewrite lookup_store_eq. by eexists.
Qed.

(** [AttrNames] and [Attr]: every listed name other than [template]
    resolves without error; a name just written is listed; [template] is
    listed whatever the chart holds. *)
Theorem chart_AttrNames_resolve c attr val :
  (∀ n, n ∈ Chart.AttrNames c -> n ≠ "template"%string ->
        ∃ x, Attr c n = (Some x, None))
  ∧ attr ∈ Chart.AttrNames (SetField c attr val).1
  ∧ "template"%string ∈ Chart.AttrNames c.
Proof.
  unfold Chart.AttrNames. split; [|split].
  - intros n Hn Ht. apply elem_of_app in Hn as [Hn|Hn].
    + apply lookup_value_key in Hn as [x Hx]. unfold Chart.Attr.
      rewrite Hx. repeat case_match; by eexists.
    + apply list_elem_of_singleton in Hn. done.
  - apply elem_of_app. left. cbn. apply store_value_key.
  - apply elem_of_app. right. by apply list_elem_of_singleton.
Qed.

End ChartExtras.

Section LifecycleExtras.

Context {O Stream : Type}.
Variable template :
  list (Event O) -> chartImpl -> string -> bool ->
  chartImpl * Stream * list (Event O).
Variable decode : Stream -> O.
Implicit Types (c : chartImpl) (k : K8sValue_ O) (t : list (Event O))
  (vs : list (string * Value)).

Abbreviation applyLocal := (Chart.applyLocal template decode).
Abbreviation deleteLocal := (Chart.deleteLocal template decode).

(** A local delete changes the chart through the rendering only: whatever
    the removal answers and whatever the releases do, the chart it leaves is
    the one the renderer left.  Releasing the secrets changes no jewel. *)
Theorem deleteLocal_keeps_rendered_chart c k opts glob t :
  let '(c2, _, _) :=
    template (t ++ [RenderTemplate (Chart.GetName c) glob false]) c glob false
  in (deleteLocal c k opts glob t).1.1 = c2.
Proof.
  pose proof (deleteLocal_removes_then_releases template decode c k opts glob t)
    as H. cbn zeta in H.
  destruct (template _ _ _ _) as [[c2 s] made].
  destruct (k8s_Delete k _ _ _) as [e|].
  - by rewrite H.
  - destruct H as (r & t4 & _ & ->). reflexivity.
Qed.

(** When no secret of the chart is on the cluster yet (every read fails
    with an error that the client classifies as not-found), the local apply
    reads them all and hands the chart to the renderer exactly as it was:
    the jewels are still as before the reads, so what they hold is made
    during the rendering.  Then it submits what was rendered, with
    [Namespaced] false whatever the options said. *)
Lemma eachVault_reads_not_found (v : Vault) vs t :
  (∀ now n, ∃ d e, Read v now n = (d, Some e) ∧ IsNotExist v e = true) ->
  Chart.eachVault vs (λ x, Jewel.read x v) t
  = ((vs, None), t ++ vault_reads vs).
Proof.
  intros Habsent. revert t.
  induction vs as [|[key val] rest IH]; intros t.
  - cbn. by rewrite app_nil_r.
  - destruct (vault_or_not val) as [[x ->]|Hv].
    + rewrite eachVault_vault, read_run.
      destruct (Habsent (List.length t) (name x)) as (d & e & -> & ->).
      rewrite IH. unfold vault_reads. cbn. by rewrite <- app_assoc.
    + rewrite (eachVault_other _ _ _ _ _ Hv), IH.
      destruct val; try reflexivity. exfalso. by eapply Hv.
Qed.

Theorem applyLocal_secrets_absent c k opts glob t :
  (∀ now n, ∃ d e, Read (k8s_vault k) now n = (d, Some e)
                   ∧ IsNotExist (k8s_vault k) e = true) ->
  let t1 := t ++ vault_reads (values c)
              ++ [RenderTemplate (Chart.GetName c) glob true] in
  let '(c', s, made) := template t1 c glob true in
  let submitted := {| Namespaced := false |} in
  applyLocal c k opts glob t
  = ((c', k8s_Apply k (List.length (t1 ++ made)) (decode s) submitted),
     t1 ++ made ++ [K8sApply k (decode s) submitted]).
Proof.
  intros Habsent. cbn zeta.
  unfold Chart.applyLocal, mbind, Eff_bind.
  rewrite (eachVault_reads_not_found _ _ _ Habsent).
  cbn zeta. rewrite set_values_same, render_run. cbn zeta.
  rewrite <- app_assoc.
  destruct (template _ _ _ _) as [[c' s] made].
  unfold call, mret, Eff_ret, set_Namespaced.
  f_equal. symmetry. apply app_assoc.
Qed.

End LifecycleExtras.

(** ** More on hashing *)

Ltac xor_solve :=
  unfold Go.xor32; apply Z.bits_inj'; intros ? _; rewrite ?Z.lxor_spec;
  repeat match goal with
         | |- context [Z.testbit ?a ?n] => destruct (Z.testbit a n)
         end; reflexivity.

Section HashExtras.

Variable lib_Hash : Value -> Z * option error.
Implicit Types (c : chartImpl) (vs : list (string * Value)).

Abbreviation outcomes :=
  (map (λ kv : string * Value, Chart.Value_Hash lib_Hash kv.2)).

(** The loop of [Hash] in closed form. *)
Lemma hash_entries_closed vs x m :
  Chart.hash_entries lib_Hash (Chart.Value_Hash lib_Hash) vs x m
  = match Chart.value_hashes (outcomes vs) m with
    | Returned z None =>
        Returned (Go.xor32 x (Go.xor32 (Chart.key_hashes lib_Hash vs) z)) None
    | other => other
    end.
Proof.
  revert x m. induction vs as [|[k e] rest IH]; intros x m.
  - cbn. f_equal. xor_solve.
  - cbn. destruct (Chart.Value_Hash lib_Hash e) as [y [err|]|msg];
      [reflexivity | | reflexivity].
    rewrite IH.
    destruct (Chart.value_hashes (outcomes rest) (Go.add32 m 7349))
      as [z [err|]|msg]; [reflexivity | | reflexivity].
    f_equal. fold (Chart.key_hashes lib_Hash rest). xor_solve.
Qed.

Lemma key_hashes_by_keys vs :
  Chart.key_hashes lib_Hash vs
  = foldr (λ k acc, Go.xor32 (Go.mul32 3 (lib_Hash (VString k)).1) acc) 0
          (map fst vs).
Proof.
  unfold Chart.key_hashes. induction vs as [|[k e] rest IH]; cbn;
    [reflexivity|]. by rewrite IH.
Qed.

Lemma key_hashes_permutation vs1 vs2 :
  Permutation (map fst vs1) (map fst vs2) ->
  Chart.key_hashes lib_Hash vs1 = Chart.key_hashes lib_Hash vs2.
Proof.
  rewrite !key_hashes_by_keys.
  induction 1 as [|k l1 l2 _ IH|k1 k2 l|l1 l2 l3 _ IH1 _ IH2]; cbn.
  - reflexivity.
  - by rewrite IH.
  - xor_solve.
  - by rewrite IH1.
Qed.

(** [Hash] of a chart is decided by the keys, in any order, and by what the
    [Hash] of each value does, in the order in which the loop meets the
    values: which key holds which value makes no difference.  In particular
    a mapping whose values all hash alike has one hash for every order. *)
Theorem Hash_ignores_pairing c1 c2 :
  Permutation (map fst (values c1)) (map fst (values c2)) ->
  outcomes (values c1) = outcomes (values c2) ->
  Chart.Hash lib_Hash c1 = Chart.Hash lib_Hash c2.
Proof.
  intros Hk Ho. unfold Chart.Hash. rewrite !hash_entries_closed, Ho.
  by rewrite (key_hashes_permutation _ _ Hk).
Qed.

End HashExtras.

Lemma Hash_ignores_pairing_witness :
  Chart.Hash Examples.hash_of (Examples.flags "a" "b")
  = Chart.Hash Examples.hash_of Examples.flags_exchanged.
Proof.
  apply Hash_ignores_pairing.
  - apply perm_swap.
  - reflexivity.
Defined.

Lemma Hash_returns_first_error_witness :
  Chart.Hash Examples.hash_of
    (Examples.chart_of "listed"
       [("replicas"%string, VLib "int"); ("ports"%string, VLib "list");
        ("tls"%string, VVault (NewJewel Examples.cert_backend "shop-tls"))])
  = Returned 0 (Some (OtherError "unhashable type: list")).
Proof.
  apply (Hash_returns_first_error Examples.hash_of _
           [("replicas"%string, VLib "int")] "ports" (VLib "list") 0
           (OtherError "unhashable type: list")
           [("tls"%string, VVault (NewJewel Examples.cert_backend "shop-tls"))]).
  - reflexivity.
  - constructor; [exists 7; reflexivity | constructor].
  - reflexivity.
Defined.

(** ** Merging overrides into a chart *)

Section MergeExtras.

Context {Iface : Type}.
Variable merge : option Value -> Value -> Value.
Variable toStarlark : Iface -> Value.
Implicit Types (c : chartImpl) (vs : list (string * Value))
  (ovs : list (string * Iface)).

Abbreviation merge_entries := (Chart.merge_entries merge toStarlark).
Abbreviation mergeValues := (Chart.mergeValues merge toStarlark).

Lemma merge_entries_other ovs vs k :
  k ∉ map fst ovs ->
  Chart.lookup_value k (merge_entries ovs vs) = Chart.lookup_value k vs.
Proof.
  revert vs. induction ovs as [|[k0 v0] rest IH]; intros vs Hk; [done|].
  cbn in Hk. apply not_elem_of_cons in Hk as [Hne Hk].
  cbn. rewrite IH by done. by apply lookup_store_ne.
Qed.

Lemma merge_entries_key ovs vs k v :
  NoDup (map fst ovs) -> (k, v) ∈ ovs ->
  Chart.lookup_value k (merge_entries ovs vs)
  = Some (merge (Chart.lookup_value k vs) (toStarlark v)).
Proof.
  revert vs. induction ovs as [|[k0 v0] rest IH]; intros vs Hnd Hin.
  - by apply elem_of_nil in Hin.
  - cbn in Hnd. apply NoDup_cons in Hnd as [Hk0 Hnd].
    apply elem_of_cons in Hin as [[= -> ->]|Hin]; cbn.
    + rewrite merge_entries_other by done. apply lookup_store_eq.
    + assert (k ≠ k0) as Hne.
      { intros ->. apply Hk0. apply list_elem_of_fmap. by exists (k0, v). }
      rewrite IH by done. by rewrite lookup_store_ne.
Qed.

(** [mergeValues] with overrides of distinct keys (a Go map): every key of
    the overrides is bound to the merge of what the chart held under it
    before the call (nothing, for a new key) with the override; every other
    key keeps its value; and the identity and the methods of the chart are
    untouched. *)
Theorem mergeValues_by_key c ovs :
  NoDup (map fst ovs) ->
  (∀ k v, (k, v) ∈ ovs ->
     Chart.lookup_value k (values (mergeValues c ovs))
     = Some (merge (Chart.lookup_value k (values c)) (toStarlark v)))
  ∧ (∀ k, k ∉ map fst ovs ->
       Chart.lookup_value k (values (mergeValues c ovs))
       = Chart.lookup_value k (values c))
  ∧ Chart.GetName (mergeValues c ovs) = Chart.GetName c
  ∧ methods (mergeValues c ovs) = methods c.
Proof.
  intros Hnd. split; [|split; [|done]].
  - intros k v Hin. cbn. by apply merge_entries_key.
  - intros k Hk. cbn. by apply merge_entries_other.
Qed.

(** The order in which the [range] yields the overrides does not show in
    the result: every key is bound alike. *)
Theorem mergeValues_any_order c ovs1 ovs2 :
  NoDup (map fst ovs1) -> Permutation ovs1 ovs2 ->
  ∀ k, Chart.lookup_value k (values (mergeValues c ovs1))
       = Chart.lookup_value k (values (mergeValues c ovs2)).
Proof.
  intros Hnd Hp k.
  assert (Hpk : Permutation (map fst ovs1) (map fst ovs2))
    by (by apply Permutation_map).
  assert (Hnd2 : NoDup (map fst ovs2)) by (by rewrite <- Hpk).
  cbn [values Chart.mergeValues Chart.set_values].
  destruct (decide (k ∈ map fst ovs1)) as [Hk|Hk].
  - apply list_elem_of_fmap in Hk as [[k' v] [-> Hkv]].
    change ((k', v).1) with k'.
    rewrite (merge_entries_key _ _ _ _ Hnd Hkv). symmetry.
    apply merge_entries_key; [done|]. by rewrite <- Hp.
  - rewrite (merge_entries_other _ _ _ Hk). symmetry.
    apply merge_entries_other. intros Hk2. apply Hk. by rewrite Hpk.
Qed.

End MergeExtras.

Lemma mergeValues_by_key_witness :
  Chart.lookup_value "replicas"
    (values (Chart.mergeValues Examples.merge_last Examples.number
               Examples.shop Examples.overrides))
  = Some (VLib "3")
  ∧ Chart.lookup_value "db"
      (values (Chart.mergeValues Examples.merge_last Examples.number
                 Examples.shop Examples.overrides))
    = Some (VChart Examples.database).
Proof.
  assert (Hnd : NoDup (map fst Examples.overrides)) by compute_done.
  destruct (mergeValues_by_key Examples.merge_last Examples.number
              Examples.shop Examples.overrides Hnd) as (Hin & Hout & _).
  split.
  - apply (Hin "replicas"%string 3%nat). apply elem_of_cons. by left.
  - apply (Hout "db"%string). compute_done.
Defined.

Lemma mergeValues_any_order_witness :
  Chart.lookup_value "port"
    (values (Chart.mergeValues Examples.merge_last Examples.number
               Examples.shop Examples.overrides))
  = Chart.lookup_value "port"
      (values (Chart.mergeValues Examples.merge_last Examples.number
                 Examples.shop (rev Examples.overrides))).
Proof.
  apply mergeValues_any_order.
  - compute_done.
  - apply perm_swap.
Defined.

(** ** The vault on the cluster *)

Section VaultExtras.

Context {O : Type}.
Variable json_Marshal : Payload -> list byte * option error.
Variable json_Unmarshal : list byte -> Payload * option error.
Variable SchemeGroupVersion : string.
Implicit Types (v : VaultK8s.vaultK8s) (c : jewel) (t : list (Event O)).

Abbreviation as_Vault := (VaultK8s.as_Vault json_Unmarshal).
Abbreviation Write := (VaultK8s.Write json_Marshal SchemeGroupVersion).
Abbreviation secret := (VaultK8s.secret SchemeGroupVersion).

(** A jewel read through the vault on the cluster.  The client is asked for
    the object of kind [secret] with the jewel's name, namespaced.  The jewel
    becomes [Loaded], with the decoded payload, only when the [Get] and the
    decoding of the object's [data] both succeed.  In every other case the
    jewel is as it was, and the error of the [Get] or of the decoding is
    returned unless the client classifies it as not-found. *)
Theorem read_through_cluster_vault v c t :
  let '(obj, gerr) :=
    VaultK8s.Get (VaultK8s.k8s v) (List.length t) "secret" (name c)
      {| Namespaced := true |} in
  let '(d, derr) :=
    json_Unmarshal (default [] (VaultK8s.Additional obj !! "data")) in
  Jewel.read c (as_Vault v) t
  = (match gerr, derr with
     | None, None => (mkJewel (backend c) stateLoaded (name c) d, None)
     | Some e, _ | None, Some e =>
         (c, if VaultK8s.IsNotExist_ (VaultK8s.k8s v) e then None else Some e)
     end, t ++ [VaultRead (name c)]).
Proof.
  destruct (VaultK8s.Get _ _ _ _ _) as [obj gerr] eqn:Hg.
  destruct (json_Unmarshal _) as [d derr] eqn:Hd.
  rewrite read_run. cbn. unfold VaultK8s.Read, VaultK8s.IsNotExist.
  rewrite Hg. destruct gerr as [e|]; [reflexivity|].
  rewrite Hd. destruct derr as [e|]; reflexivity.
Qed.

(** [Read] looks for the payload where [Write] puts it. *)
Lemma secret_data v n bs :
  VaultK8s.Additional (secret v n bs) !! "data" = Some bs.
Proof.
  unfold VaultK8s.secret. cbn [VaultK8s.Additional].
  rewrite lookup_insert_ne by done. apply lookup_singleton_eq.
Qed.

(** Write, then read.  When the JSON codec returns the payload it was given
    and the cluster returns the object that [Write] handed to the writer,
    a new jewel of the same name that reads the vault is [Loaded] with the
    data of the jewel that was written. *)
Theorem write_then_read v c t now bs :
  json_Marshal (data c) = (bs, None) ->
  json_Unmarshal bs = (data c, None) ->
  VaultK8s.Get (VaultK8s.k8s v) (List.length t) "secret" (name c)
    {| Namespaced := true |} = (secret v (name c) bs, None) ->
  Jewel.write c (Write v) now
  = VaultK8s.objectWriter v now (secret v (name c) bs)
  ∧ Jewel.read (NewJewel (backend c) (name c)) (as_Vault v) t
    = ((mkJewel (backend c) stateLoaded (name c) (data c), None),
       t ++ [VaultRead (name c)]).
Proof.
  intros Hm Hu Hg. split.
  - unfold Jewel.write, VaultK8s.Write. by rewrite Hm.
  - rewrite read_run. cbn [Read as_Vault VaultK8s.as_Vault name NewJewel].
    unfold VaultK8s.Read. rewrite Hg, secret_data. cbn [default id].
    unfold id. by rewrite Hu.
Qed.

End VaultExtras.

Lemma write_then_read_witness :
  let c := mkJewel Examples.cert_backend stateReady "shop-tls"
             Examples.tls_payload in
  Jewel.write c
    (VaultK8s.Write Examples.marshal "v1" Examples.cluster_vault) 0%nat
  = None
  ∧ Jewel.read (O := unit) (NewJewel Examples.cert_backend "shop-tls")
      (VaultK8s.as_Vault Examples.unmarshal Examples.cluster_vault) []
    = ((mkJewel Examples.cert_backend stateLoaded "shop-tls"
          Examples.tls_payload, None),
       [VaultRead "shop-tls"]).
Proof.
  exact (write_then_read Examples.marshal Examples.unmarshal "v1"
           Examples.cluster_vault
           (mkJewel Examples.cert_backend stateReady "shop-tls"
              Examples.tls_payload)
           [] 0%nat Examples.tls_json eq_refl eq_refl eq_refl).
Defined.

(** The further properties that have a premise, at concrete inputs. *)

Lemma read_then_ensure_witness :
  ('(c1, _) ← Jewel.read (O := unit) (NewJewel Examples.cert_backend "stored")
                Examples.one_secret_vault;
   Jewel.ensure c1) []
  = ((mkJewel Examples.cert_backend stateReady "stored"
        {[ "pwd" := Examples.generated 0 ]}, None),
     [VaultRead "stored";
      BackendApply "certificate" {[ "pwd" := Examples.generated 0 ]}]).
Proof.
  exact (read_then_ensure (NewJewel Examples.cert_backend "stored")
           Examples.one_secret_vault [] {[ "pwd" := Examples.generated 0 ]}
           eq_refl).
Defined.

Lemma first_install_one_backend_call_witness :
  ('(c1, _) ← Jewel.read (O := unit)
                (NewJewel Examples.password_backend "db")
                Examples.one_secret_vault;
   '(c2, r1) ← Jewel.Attr c1 "password";
   '(c3, r2) ← Jewel.Attr c2 "password";
   mret (c3, r1, r2)) []
  = ((mkJewel Examples.password_backend stateReady "db"
        {[ "pwd" := Examples.generated 1 ]},
      (VString "ss", None), (VString "ss", None)),
     [VaultRead "db"; BackendApply "password" ∅]).
Proof.
  exact (first_install_one_backend_call Examples.password_backend
           Examples.one_secret_vault "db" "password" "pwd" "password" "pwd"
           [] ∅ Examples.not_found {[ "pwd" := Examples.generated 1 ]}
           eq_refl ltac:(discriminate) ltac:(discriminate)
           eq_refl eq_refl eq_refl eq_refl eq_refl).
Defined.

Lemma templateValues_agrees_with_Attr_witness :
  let c := mkJewel Examples.password_backend stateReady "db"
             {[ "pwd" := Examples.generated 0 ]} in
  ∃ tv, Jewel.templateValues (O := unit) c [] = ((c, tv), [])
        ∧ VString <$> (tv !! "password") = Some (VString "s").
Proof.
  exact (templateValues_agrees_with_Attr
           (mkJewel Examples.password_backend stateReady "db"
              {[ "pwd" := Examples.generated 0 ]})
           [] "password" "pwd" _ _ [] ltac:(discriminate) eq_refl eq_refl).
Defined.

Lemma applyLocal_secrets_absent_witness :
  Chart.applyLocal Examples.render_reading Examples.documents Examples.shop
    Examples.fresh_cluster {| Namespaced := true |} "*.yaml" []
  = ((Examples.chart_of "shop"
        [ ("db"%string, VChart Examples.database);
          ("tls"%string,
           VVault (mkJewel Examples.cert_backend stateReady "shop-tls"
                     {[ "tls.key" := Examples.generated 2 ]}));
          ("replicas"%string, VLib "int") ],
      None),
     [ VaultRead "shop-tls";
       RenderTemplate "shop" "*.yaml" true;
       BackendTemplate "certificate";
       K8sApply Examples.fresh_cluster ["manifests of shop"%string]
         {| Namespaced := false |} ]).
Proof.
  exact (applyLocal_secrets_absent Examples.render_reading Examples.documents
           Examples.shop Examples.fresh_cluster {| Namespaced := true |}
           "*.yaml" [] Examples.nothing_stored).
Defined.

Lemma deleted_jewel_still_answers_witness :
  let c := mkJewel Examples.cert_backend stateReady "shop-tls"
             Examples.tls_payload in
  ∃ calls,
    (calls = [] ∨ calls = [BackendDelete "certificate"])
    ∧ ('(c1, _) ← Jewel.delete (O := unit) c; Jewel.Attr c1 "key") []
      = ((c, (VString "s", None)), [] ++ calls).
Proof.
  exact (deleted_jewel_still_answers
           (mkJewel Examples.cert_backend stateReady "shop-tls"
              Examples.tls_payload)
           [] "key" "tls.key" eq_refl ltac:(discriminate) eq_refl).
Defined.
